(** * Animated character controller and spritesheet slicer

    A shallow embedding of [animated-character.js]: the [TextureFactory]
    slicer, the [AnimatedCharacter] controller (registry, current
    animation and direction, frame preserving transitions) and the
    factory [CreateCharacterWithManyAnimations].

    Conventions of the embedding.
    - Pixel sizes and frame indices are integers ([Z]).  For integer [a]
      and [b > 0], [Math.floor(a / b)] is [a / b] on [Z]; the slicer is
      only meant for positive frame sizes and every statement about it
      carries them as hypotheses.
    - A JavaScript object whose key order is observable ([Object.keys] of
      a direction mapping, [Object.entries] of the configuration) is an
      association list in insertion order: assigning to an existing key
      keeps its position, a new key goes last.  Direction labels are
      ordinary names (not array indices, not names of members of
      [Object.prototype]).
    - The registry [animations] is a finite map of the entries it owns:
      the operations treated here only read and write it by key.  A read
      under a name it does not own finds what every object inherits from
      [Object.prototype], if that has a member of this name, and
      [undefined] otherwise.  No animation is registered under
      [__proto__].
    - [undefined] is [None]; used as a property key it reads "undefined".
    - The sprite host ([PIXI.AnimatedSprite]) is represented by the
      fields the controller touches. *)

From Stdlib Require Import ZArith Lia.
From Stdlib Require QArith.
From stdpp Require Import base option list strings gmap.

Local Open Scope string_scope.
Local Open Scope list_scope.
Local Open Scope Z_scope.

(** ** JavaScript objects with observable key order *)

Module Obj.

Definition t (V : Type) : Type := list (string * V).

(** [o[k]] *)
Fixpoint get {V} (o : t V) (k : string) : option V :=
  match o with
  | [] => None
  | (k', v) :: o' => if decide (k' = k) then Some v else get o' k
  end.

(** [o[k] = v] *)
Fixpoint set {V} (o : t V) (k : string) (v : V) : t V :=
  match o with
  | [] => [(k, v)]
  | (k', v') :: o' =>
      if decide (k' = k) then (k, v) :: o' else (k', v') :: set o' k v
  end.

(** [Object.keys(o)] *)
Definition keys {V} (o : t V) : list string := o.*1.

(** [o[k].push(x)]; the slicer only pushes to a key it has just
    initialised, so the absent case leaves the object alone. *)
Definition push {V} (o : t (list V)) (k : string) (x : V) : t (list V) :=
  match get o k with
  | Some a => set o k (a ++ [x])
  | None => o
  end.

End Obj.

(** A key coming from a possibly [undefined] value. *)
Definition to_key (v : option string) : string := default "undefined" v.

(** ** Textures *)

(** The loaded spritesheet image, as far as the slicer looks at it. *)
Record BaseTexture := mkBaseTexture {
  width : Z;
  height : Z
}.

(** [new PIXI.Rectangle(x, y, width, height)] *)
Record Rectangle := mkRectangle {
  rect_x : Z;
  rect_y : Z;
  rect_width : Z;
  rect_height : Z
}.

(** [new PIXI.Texture({ source, frame })] *)
Record Texture := mkTexture {
  source : BaseTexture;
  frame : Rectangle
}.

(** [PIXI.Texture.EMPTY], the placeholder of a fresh sprite. *)
Definition Texture_EMPTY : Texture :=
  mkTexture (mkBaseTexture 1 1) (mkRectangle 0 0 1 1).

#[global] Instance BaseTexture_eq_dec : EqDecision BaseTexture.
Proof. solve_decision. Defined.
#[global] Instance Rectangle_eq_dec : EqDecision Rectangle.
Proof. solve_decision. Defined.
#[global] Instance Texture_eq_dec : EqDecision Texture.
Proof. solve_decision. Defined.

(** A region lies inside the image when its pixel columns
    [rect_x, rect_x + rect_width) and rows [rect_y, rect_y + rect_height)
    are within [0, width) and [0, height). *)
Definition within (r : Rectangle) (img : BaseTexture) : Prop :=
  0 <= rect_x r /\ rect_x r + rect_width r <= width img /\
  0 <= rect_y r /\ rect_y r + rect_height r <= height img.

(** ** TextureFactory *)

Module TextureFactory.

Record result := mkResult {
  textureData : Obj.t (list Texture);
  frameCount : Z
}.

(** The frame cut at column [i] of row [rowIndex]. *)
Definition frameTexture (baseTexture : BaseTexture)
    (frameWidth frameHeight : Z) (rowIndex i : nat) : Texture :=
  mkTexture baseTexture
    (mkRectangle (Z.of_nat i * frameWidth) (Z.of_nat rowIndex * frameHeight)
                 frameWidth frameHeight).

(** [directions[rowIndex]] used as a property key. *)
Definition direction_at (directions : list string) (rowIndex : nat) : string :=
  to_key (directions !! rowIndex).

(** Body of the outer loop: initialise the row's array, then push one
    texture per column. *)
Definition row_step (baseTexture : BaseTexture) (frameWidth frameHeight : Z)
    (directions : list string) (frameCount : Z)
    (textureData : Obj.t (list Texture)) (rowIndex : nat) : Obj.t (list Texture) :=
  let direction := direction_at directions rowIndex in
  let textureData := Obj.set textureData direction [] in
  fold_left
    (fun td i =>
       Obj.push td direction (frameTexture baseTexture frameWidth frameHeight rowIndex i))
    (seq 0 (Z.to_nat frameCount)) textureData.

Definition createFrameTextures (baseTexture : BaseTexture)
    (frameWidth frameHeight : Z) (directions : list string) : result :=
  let frameCount := width baseTexture / frameWidth in
  let rowCount := height baseTexture / frameHeight in
  let textureData :=
    fold_left (row_step baseTexture frameWidth frameHeight directions frameCount)
              (seq 0 (Z.to_nat rowCount)) [] in
  mkResult textureData frameCount.

(** The textures of one row, in column order. *)
Definition row_frames (baseTexture : BaseTexture) (frameWidth frameHeight : Z)
    (frameCount : Z) (rowIndex : nat) : list Texture :=
  frameTexture baseTexture frameWidth frameHeight rowIndex <$> seq 0 (Z.to_nat frameCount).

(** The outer loop, run over the given row indices. *)
Definition run_rows (baseTexture : BaseTexture) (frameWidth frameHeight : Z)
    (directions : list string) (frameCount : Z) (rowIndices : list nat)
    (textureData : Obj.t (list Texture)) : Obj.t (list Texture) :=
  fold_left (row_step baseTexture frameWidth frameHeight directions frameCount)
            rowIndices textureData.

End TextureFactory.

(** ** Effects: the world the methods run in *)

(** A thrown [Error], kept by the text of its [message]. *)
Record Error := mkError { message : string }.

(** [undefined[key]]: reading a property of [undefined] throws. *)
Definition TypeError_reading (key : string) : Error :=
  mkError (String.append "Cannot read properties of undefined (reading '"
             (String.append key "')")).

(** [undefined.length] *)
Definition TypeError_length : Error :=
  mkError "Cannot read properties of undefined (reading 'length')".

(** JavaScript numbers that are only stored and handed on (speeds). *)
Definition number : Type := QArith_base.Q.

(** One registered animation: the object literal built by [addAnimation]. *)
Record AnimationEntry := mkEntry {
  anim_textures : Obj.t (list Texture);   (* textures *)
  anim_frameCount : Z;                    (* frameCount *)
  anim_speed : number;                    (* speed *)
  anim_directions : list string           (* directions *)
}.

(** The fields of an [AnimatedCharacter]: its own ones, followed by those
    of the sprite it extends. *)
Record AnimatedCharacter := mkCharacter {
  animations : gmap string AnimationEntry;
  currentAnimation : option string;       (* null until the first commit *)
  currentDirection : option string;
  speed : Z;
  visible : bool;
  textures : option (list Texture);
  animationSpeed : number;
  playing : bool;
  currentFrame : Z
}.

(** Lines written to the console, by the call that wrote them. *)
Inductive ConsoleLine :=
| error_no_animation (animationName : string)
| log_creating (total : nat)
| log_loaded (animName : string) (frameCount : Z)
| warn_load_error (animName : string) (error : Error)
| log_created (successful total : nat)
| warn_failed (names : list string).

Record World := mkWorld {
  this : AnimatedCharacter;
  console : list ConsoleLine
}.

(** How a call ends: it returns, or an exception leaves it. *)
Inductive completion (A : Type) :=
| Normal (a : A)
| Throw (e : Error).
Arguments Normal {A} a.
Arguments Throw {A} e.

(** Methods are state transformers that may throw; the state reached when
    the exception left is kept, as the caller observes it. *)
Definition M (A : Type) : Type := World -> completion A * World.

#[global] Instance M_ret : MRet M := fun A a w => (Normal a, w).
#[global] Instance M_bind : MBind M := fun A B f m w =>
  match m w with
  | (Normal a, w') => f a w'
  | (Throw e, w') => (Throw e, w')
  end.

Definition throw {A} (e : Error) : M A := fun w => (Throw e, w).

(** [try { body } catch (error) { handler(error) }] *)
Definition try_catch {A} (body : M A) (handler : Error -> M A) : M A := fun w =>
  match body w with
  | (Normal a, w') => (Normal a, w')
  | (Throw e, w') => handler e w'
  end.

Definition get_this : M AnimatedCharacter := fun w => (Normal (this w), w).

Definition update_this (f : AnimatedCharacter -> AnimatedCharacter) : M unit :=
  fun w => (Normal tt, mkWorld (f (this w)) (console w)).

Definition console_write (line : ConsoleLine) : M unit :=
  fun w => (Normal tt, mkWorld (this w) (console w ++ [line])).

(** *** Field assignments *)

Definition with_animations (v : gmap string AnimationEntry) (c : AnimatedCharacter) :=
  mkCharacter v (currentAnimation c) (currentDirection c) (speed c) (visible c)
              (textures c) (animationSpeed c) (playing c) (currentFrame c).

Definition with_currentAnimation (v : option string) (c : AnimatedCharacter) :=
  mkCharacter (animations c) v (currentDirection c) (speed c) (visible c)
              (textures c) (animationSpeed c) (playing c) (currentFrame c).

Definition with_currentDirection (v : option string) (c : AnimatedCharacter) :=
  mkCharacter (animations c) (currentAnimation c) v (speed c) (visible c)
              (textures c) (animationSpeed c) (playing c) (currentFrame c).

Definition with_visible (v : bool) (c : AnimatedCharacter) :=
  mkCharacter (animations c) (currentAnimation c) (currentDirection c) (speed c) v
              (textures c) (animationSpeed c) (playing c) (currentFrame c).

Definition with_animationSpeed (v : number) (c : AnimatedCharacter) :=
  mkCharacter (animations c) (currentAnimation c) (currentDirection c) (speed c)
              (visible c) (textures c) v (playing c) (currentFrame c).

(** *** The sprite host *)

(** Modelled from the spec: the Renderable Sprite Host, the sprite class
    the controller extends, whose code is not among the sources.  It has
    a settable frame sequence ([textures]) and playback speed
    ([animationSpeed]), a readable play flag ([playing]) and frame index
    ([currentFrame]), seek-and-play ([gotoAndPlay]), seek-and-pause
    ([gotoAndStop]), [play] and [stop].  Handing it a new frame sequence
    disturbs its playback state, the sprite stopping on its first frame,
    which is why [changeAnimation] reads [playing] and [currentFrame]
    beforehand.  The sequences it is meant for are the non-empty ones of
    the registry entries; what the sprite does with an empty sequence, or
    with a frame index outside the sequence it holds, is not part of this
    description. *)
Definition with_textures (v : list Texture) (c : AnimatedCharacter) :=
  mkCharacter (animations c) (currentAnimation c) (currentDirection c) (speed c)
              (visible c) (Some v) (animationSpeed c) false 0.

Definition gotoAndPlay (frameNumber : Z) (c : AnimatedCharacter) :=
  mkCharacter (animations c) (currentAnimation c) (currentDirection c) (speed c)
              (visible c) (textures c) (animationSpeed c) true frameNumber.

Definition gotoAndStop (frameNumber : Z) (c : AnimatedCharacter) :=
  mkCharacter (animations c) (currentAnimation c) (currentDirection c) (speed c)
              (visible c) (textures c) (animationSpeed c) false frameNumber.

Definition sprite_play (c : AnimatedCharacter) :=
  mkCharacter (animations c) (currentAnimation c) (currentDirection c) (speed c)
              (visible c) (textures c) (animationSpeed c) true (currentFrame c).

Definition sprite_stop (c : AnimatedCharacter) :=
  mkCharacter (animations c) (currentAnimation c) (currentDirection c) (speed c)
              (visible c) (textures c) (animationSpeed c) false (currentFrame c).

(** [this.textures = value]: the host takes a sequence.  Handed
    [undefined] its setter throws when it looks at the first element of
    what it was given, before anything of the sprite has changed. *)
Definition assign_textures (value : option (list Texture)) : M unit :=
  match value with
  | None => throw (TypeError_reading "0")
  | Some frames => update_this (with_textures frames)
  end.

(** ** AnimatedCharacter *)

(** The names of the members of [Object.prototype], which a property
    read on a plain object such as [this.animations] finds when the
    object has no property of its own under the name.  Each of them is a
    function or an object: truthy, and without [textures] or
    [directions]. *)
Definition Object_prototype : list string :=
  ["constructor"; "__defineGetter__"; "__defineSetter__"; "hasOwnProperty";
   "__lookupGetter__"; "__lookupSetter__"; "isPrototypeOf";
   "propertyIsEnumerable"; "toString"; "valueOf"; "__proto__"; "toLocaleString"].

Definition inherited (name : string) : bool := bool_decide (name ∈ Object_prototype).

(** [!v] for a value that is [null] or a string: the empty string is
    falsy as well. *)
Definition falsy (v : option string) : bool :=
  match v with
  | None => true
  | Some s => bool_decide (s = EmptyString)
  end.

(** [constructor()] *)
Definition new_AnimatedCharacter : AnimatedCharacter :=
  with_visible false
    (sprite_play
       (mkCharacter ∅ None (Some "down") 5 true (Some [Texture_EMPTY])
                    (QArith_base.Qmake 1 1) false 0)).

(** The direction [changeAnimation] settles on (lines 204 to 216): the
    argument, or the current direction for [null]; when the entry has no
    textures under it, the first key of the entry's mapping, which is
    [undefined] for a mapping without keys. *)
Definition resolve_direction (self : AnimatedCharacter) (anim : AnimationEntry)
    (direction : option string) : option string :=
  let direction :=
    match direction with
    | None => currentDirection self
    | Some d => Some d
    end in
  match Obj.get (anim_textures anim) (to_key direction) with
  | None => head (Obj.keys (anim_textures anim))
  | Some _ => direction
  end.

(** [changeAnimation(animationName, direction = null)].
    [this.animations[animationName]] is the registered entry, or an
    inherited member of [Object.prototype], or [undefined]; only the last
    is falsy.  An inherited member passes the validation, and line 211
    reads [direction] from its [textures], which is [undefined]. *)
Definition changeAnimation (animationName : string) (direction : option string) : M unit :=
  self ← get_this;
  match animations self !! animationName with
  | None =>
      if inherited animationName
      then
        let direction :=
          match direction with
          | None => currentDirection self
          | Some d => Some d
          end in
        throw (TypeError_reading (to_key direction))
      else console_write (error_no_animation animationName)
  | Some anim =>
      let direction := resolve_direction self anim direction in
      if bool_decide (currentAnimation self ≠ Some animationName ∨
                      currentDirection self ≠ direction)
      then
        let wasPlaying := playing self in
        let currentFrame := currentFrame self in
        assign_textures (Obj.get (anim_textures anim) (to_key direction));;
        update_this (with_animationSpeed (anim_speed anim));;
        match Obj.get (anim_textures anim) (to_key direction) with
        | None => throw TypeError_length
        | Some frames =>
            let newAnimationFrameCount := Z.of_nat (length frames) in
            let targetFrame := Z.min currentFrame (newAnimationFrameCount - 1) in
            (if wasPlaying
             then update_this (gotoAndPlay targetFrame)
             else update_this (gotoAndStop targetFrame));;
            update_this (with_currentAnimation (Some animationName));;
            update_this (with_currentDirection direction)
        end
      else mret tt
  end.

(** [addAnimation(name, textureData, frameCount, speed = 0.15)] *)
Definition addAnimation (name : string) (textureData : Obj.t (list Texture))
    (frameCount : Z) (speed : option number) : M unit :=
  let speed := default (QArith_base.Qmake 15 100) speed in
  update_this (fun self =>
    with_animations
      (<[name := mkEntry textureData frameCount speed (Obj.keys textureData)]>
         (animations self)) self);;
  self ← get_this;
  if falsy (currentAnimation self)
  then
    update_this (with_visible true);;
    changeAnimation name (currentDirection self)
  else mret tt.

(** [changeDirection(direction)] *)
Definition changeDirection (direction : option string) : M unit :=
  self ← get_this;
  match currentAnimation self with
  | Some name =>
      if falsy (Some name) then mret tt else changeAnimation name direction
  | None => mret tt
  end.

(** [pause()] and [play()] *)
Definition pause : M unit := update_this sprite_stop.
Definition play : M unit := update_this sprite_play.

(** [getAvailableDirections(animationName)]: the [directions] of what
    [this.animations[animationName]] finds, which is [undefined] ([None])
    for an inherited member, and the empty list when nothing is found. *)
Definition getAvailableDirections (animationName : string) : M (option (list string)) :=
  self ← get_this;
  match animations self !! animationName with
  | Some anim => mret (Some (anim_directions anim))
  | None => if inherited animationName then mret None else mret (Some [])
  end.

(** The recorded state is consistent when the current animation, if any,
    is registered and the current direction is a key of its mapping. *)
Definition consistent (c : AnimatedCharacter) : Prop :=
  forall name, currentAnimation c = Some name ->
    exists anim, animations c !! name = Some anim /\
                 is_Some (Obj.get (anim_textures anim) (to_key (currentDirection c))).

(** *** The factory *)

Record AnimationConfig := mkConfig { cfg_speed : option number }.

Record LoadResults := mkLoadResults {
  successful : list string;
  failed : list (string * string);        (* { name, error } *)
  total : nat
}.

Section Factory.

(** [PIXI.Assets.load]: the image behind a path, or the error the
    awaited promise rejects with. *)
Variable Assets_load : string -> Error + BaseTexture.

Definition await_load (path : string) : M BaseTexture := fun w =>
  match Assets_load path with
  | inl e => (Throw e, w)
  | inr texture => (Normal texture, w)
  end.

(** One turn of the loop over [Object.entries(animationConfigs)]. *)
Definition load_animation (frameW frameH : Z) (directions : list string)
    (basePath : string) (loadResults : LoadResults)
    (entry : string * AnimationConfig) : M LoadResults :=
  let '(animName, config) := entry in
  try_catch
    (texture ← await_load (String.append basePath (String.append animName ".png"));
     let result := TextureFactory.createFrameTextures texture frameW frameH directions in
     addAnimation animName (TextureFactory.textureData result)
                  (TextureFactory.frameCount result) (cfg_speed config);;
     console_write (log_loaded animName (TextureFactory.frameCount result));;
     mret (mkLoadResults (successful loadResults ++ [animName])
                         (failed loadResults) (total loadResults)))
    (fun error =>
       console_write (warn_load_error animName error);;
       mret (mkLoadResults (successful loadResults)
                           (failed loadResults ++ [(animName, message error)])
                           (total loadResults))).

Fixpoint load_all (frameW frameH : Z) (directions : list string)
    (basePath : string) (entries : list (string * AnimationConfig))
    (loadResults : LoadResults) : M LoadResults :=
  match entries with
  | [] => mret loadResults
  | entry :: entries =>
      loadResults ← load_animation frameW frameH directions basePath loadResults entry;
      load_all frameW frameH directions basePath entries loadResults
  end.

(** [CreateCharacterWithManyAnimations(animationConfigs, frameW, frameH,
    directions, basePath = "pngs/")], run from a console holding
    [console0]; the result is [{ character, loadResults }] and the
    console afterwards. *)
Definition CreateCharacterWithManyAnimations
    (animationConfigs : Obj.t AnimationConfig) (frameW frameH : Z)
    (directions : list string) (basePath : option string)
    (console0 : list ConsoleLine)
  : completion (AnimatedCharacter * LoadResults) * list ConsoleLine :=
  let basePath := default "pngs/" basePath in
  let run :=
    let loadResults := mkLoadResults [] [] (length (Obj.keys animationConfigs)) in
    console_write (log_creating (total loadResults));;
    loadResults ← load_all frameW frameH directions basePath animationConfigs loadResults;
    console_write (log_created (length (successful loadResults)) (total loadResults));;
    (if bool_decide (0 < length (failed loadResults))%nat
     then console_write (warn_failed (failed loadResults).*1)
     else mret tt);;
    character ← get_this;
    mret (character, loadResults) in
  let '(r, w) := run (mkWorld new_AnimatedCharacter console0) in
  (r, console w).

End Factory.

(** ** Sample sheets and characters

    Sheets of 64 x 64 frames, and characters built through the public
    operations, for the concrete runs further down. *)

Definition sheet (columns rows : Z) : BaseTexture :=
  mkBaseTexture (64 * columns) (64 * rows).

Definition slice (baseTexture : BaseTexture) (directions : list string) :=
  TextureFactory.createFrameTextures baseTexture 64 64 directions.

(** [self.addAnimation(name, result.textureData, result.frameCount, speed)]
    for the slicing [result] of a sheet, as the factory does it. *)
Definition register (name : string) (baseTexture : BaseTexture)
    (directions : list string) (speed : option number) (w : World) : World :=
  let result := slice baseTexture directions in
  (addAnimation name (TextureFactory.textureData result)
                (TextureFactory.frameCount result) speed w).2.

(** The entry [register] leaves in the registry. *)
Definition sliced_entry (baseTexture : BaseTexture) (directions : list string)
    (speed : number) : AnimationEntry :=
  let result := slice baseTexture directions in
  mkEntry (TextureFactory.textureData result) (TextureFactory.frameCount result) speed
          (Obj.keys (TextureFactory.textureData result)).

Definition fresh : World := mkWorld new_AnimatedCharacter [].

Definition four_ways : list string := ["up"; "left"; "down"; "right"].

(** A 12-frame "run" and a 6-frame "walk"; the sprite is playing "run"
    and its clock has reached frame 9. *)
Definition running : World :=
  let w := register "walk" (sheet 6 4) four_ways (Some (QArith_base.Qmake 1 10))
             (register "run" (sheet 12 4) four_ways None fresh) in
  mkWorld (gotoAndPlay 9 (this w)) (console w).

(** "idle" in four directions and "hurt" facing down only. *)
Definition hurting : World :=
  register "hurt" (sheet 6 1) ["down"] None
    (register "idle" (sheet 2 4) four_ways None fresh).

(** "idle", and a "ghost" whose sheet is lower than one frame. *)
Definition haunted : World :=
  register "ghost" (mkBaseTexture 64 10) four_ways None
    (register "idle" (sheet 2 4) four_ways None fresh).

(** "idle" registered facing down, then registered again with a sheet
    labelled "up" only: the current direction "down" dangles. *)
Definition dangling : World :=
  register "idle" (sheet 2 1) ["up"] None
    (register "idle" (sheet 2 1) ["down"] None fresh).

(** "run" in four directions, current and facing left, and "hurt" facing
    down only. *)
Definition facing_left : World :=
  (changeDirection (Some "left")
     (register "hurt" (sheet 6 1) ["down"] None
        (register "run" (sheet 12 4) four_ways None fresh))).2.

(** An asset provider that only has "pngs/a.png", an image 128 wide and
    10 high. *)
Definition only_low_a (path : string) : Error + BaseTexture :=
  if decide (path = "pngs/a.png") then inr (mkBaseTexture 128 10)
  else inl (mkError "not found").

(** An asset provider that only has "pngs/a.png", a sheet of 2 x 4
    frames. *)
Definition only_a (path : string) : Error + BaseTexture :=
  if decide (path = "pngs/a.png") then inr (sheet 2 4) else inl (mkError "not found").

(** ** Sequences of calls

    What a caller can do with a character, one call after the other; a
    call that throws leaves the character in the state it had reached. *)

Inductive Call :=
| call_addAnimation (name : string) (textureData : Obj.t (list Texture))
                    (frameCount : Z) (speed : option number)
| call_changeAnimation (animationName : string) (direction : option string)
| call_changeDirection (direction : option string)
| call_pause
| call_play.

Definition perform (call : Call) : M unit :=
  match call with
  | call_addAnimation name textureData frameCount speed =>
      addAnimation name textureData frameCount speed
  | call_changeAnimation animationName direction => changeAnimation animationName direction
  | call_changeDirection direction => changeDirection direction
  | call_pause => pause
  | call_play => play
  end.

Fixpoint perform_all (calls : list Call) (w : World) : World :=
  match calls with
  | [] => w
  | call :: calls => perform_all calls (perform call w).2
  end.

(** What every sequence of calls keeps: the current direction is a
    defined one, the current animation (if any) is registered, and the
    sprite is visible exactly if something is registered. *)
Definition well_kept (c : AnimatedCharacter) : Prop :=
  is_Some (currentDirection c) /\
  (forall name, currentAnimation c = Some name -> is_Some (animations c !! name)) /\
  (visible c = true <-> animations c <> ∅).

(** The sprite shows a frame of the sequence it holds. *)
Definition frame_in_range (c : AnimatedCharacter) : Prop :=
  exists frames, textures c = Some frames /\
                 0 <= currentFrame c < Z.of_nat (length frames).

(** Two regions have no pixel in common. *)
Definition disjoint (r1 r2 : Rectangle) : Prop :=
  rect_x r1 + rect_width r1 <= rect_x r2 \/ rect_x r2 + rect_width r2 <= rect_x r1 \/
  rect_y r1 + rect_height r1 <= rect_y r2 \/ rect_y r2 + rect_height r2 <= rect_y r1.

(** * Properties *)

(** ** Objects *)

Module ObjFacts.

Lemma get_set_eq {V} (o : Obj.t V) k v : Obj.get (Obj.set o k v) k = Some v.
Proof.
  induction o as [|[k' v'] o IH]; simpl.
  - by rewrite decide_True.
  - destruct (decide (k' = k)) as [->|Hne]; simpl.
    + by rewrite decide_True.
    + by rewrite decide_False.
Qed.

Lemma get_set_ne {V} (o : Obj.t V) k k' v :
  k ≠ k' -> Obj.get (Obj.set o k v) k' = Obj.get o k'.
Proof.
  intros Hne. induction o as [|[k0 v0] o IH]; simpl.
  - by rewrite decide_False.
  - destruct (decide (k0 = k)) as [->|Hne0]; simpl.
    + by rewrite !decide_False.
    + by rewrite IH.
Qed.

Lemma set_set {V} (o : Obj.t V) k v v' :
  Obj.set (Obj.set o k v) k v' = Obj.set o k v'.
Proof.
  induction o as [|[k0 v0] o IH]; simpl.
  - by rewrite decide_True.
  - destruct (decide (k0 = k)) as [->|Hne0]; simpl.
    + by rewrite decide_True.
    + by rewrite decide_False, IH.
Qed.

Lemma get_None {V} (o : Obj.t V) k : Obj.get o k = None <-> k ∉ Obj.keys o.
Proof.
  unfold Obj.keys. induction o as [|[k0 v0] o IH]; simpl.
  - split; [intros _; apply not_elem_of_nil | done].
  - rewrite not_elem_of_cons. destruct (decide (k0 = k)) as [->|Hne0].
    + split; [done | intros [? _]; done].
    + rewrite IH. split; [intros ?; split; [congruence | done] | intros [_ ?]; done].
Qed.

Lemma get_is_Some {V} (o : Obj.t V) k : is_Some (Obj.get o k) <-> k ∈ Obj.keys o.
Proof.
  rewrite <- not_eq_None_Some, get_None.
  split; [apply dec_stable | intros H Hn; by apply Hn].
Qed.

(** Insertion order: an existing key keeps its place, a new one goes last. *)
Lemma keys_set {V} (o : Obj.t V) k v :
  Obj.keys (Obj.set o k v) =
  match Obj.get o k with
  | Some _ => Obj.keys o
  | None => Obj.keys o ++ [k]
  end.
Proof.
  unfold Obj.keys. induction o as [|[k0 v0] o IH]; [done|].
  cbn [Obj.set Obj.get]. destruct (decide (k0 = k)) as [->|Hne0]; [done|].
  rewrite !fmap_cons, IH. by destruct (Obj.get o k).
Qed.

Lemma elem_of_keys_set {V} (o : Obj.t V) k v k' :
  k' ∈ Obj.keys (Obj.set o k v) <-> k' = k \/ k' ∈ Obj.keys o.
Proof.
  rewrite keys_set. destruct (Obj.get o k) eqn:E.
  - split; [by right | intros [->|?]; [|done]].
    apply get_is_Some. by rewrite E.
  - rewrite elem_of_app, list_elem_of_singleton. tauto.
Qed.

Lemma head_keys_get {V} (o : Obj.t V) k :
  head (Obj.keys o) = Some k -> is_Some (Obj.get o k).
Proof.
  destruct o as [|[k0 v0] o]; simpl; [done|].
  intros [= ->]. rewrite decide_True; eauto.
Qed.

Lemma head_keys_None {V} (o : Obj.t V) : head (Obj.keys o) = None -> o = [].
Proof. by destruct o as [|[??] ?]. Qed.

End ObjFacts.

(** ** The slicer *)

Module SlicerFacts.
Import TextureFactory.

Section Sheet.
Variables (baseTexture : BaseTexture) (frameWidth frameHeight : Z).
Variable directions : list string.

Let frames := row_frames baseTexture frameWidth frameHeight.
Let label := direction_at directions.
Let rows := run_rows baseTexture frameWidth frameHeight directions.

(** The pushes of the inner loop fill the array the row started with. *)
Lemma push_loop td direction rowIndex acc cols :
  fold_left
    (fun td i =>
       Obj.push td direction (frameTexture baseTexture frameWidth frameHeight rowIndex i))
    cols (Obj.set td direction acc)
  = Obj.set td direction
      (acc ++ (frameTexture baseTexture frameWidth frameHeight rowIndex <$> cols)).
Proof.
  revert acc. induction cols as [|i cols IH]; intros acc; simpl.
  - by rewrite app_nil_r.
  - unfold Obj.push at 2. rewrite ObjFacts.get_set_eq, ObjFacts.set_set, IH.
    by rewrite <- app_assoc.
Qed.

(** A row overwrites its label with its own frames. *)
Lemma row_step_set frameCount td rowIndex :
  row_step baseTexture frameWidth frameHeight directions frameCount td rowIndex
  = Obj.set td (label rowIndex) (frames frameCount rowIndex).
Proof. unfold row_step. by rewrite push_loop. Qed.

Lemma rows_snoc frameCount rowIndices r td :
  rows frameCount (rowIndices ++ [r]) td
  = Obj.set (rows frameCount rowIndices td) (label r) (frames frameCount r).
Proof. unfold rows, run_rows. by rewrite fold_left_app; simpl; rewrite row_step_set. Qed.

Lemma rows_keys frameCount rowIndices td k :
  k ∈ Obj.keys (rows frameCount rowIndices td) <->
  k ∈ Obj.keys td \/ exists r, r ∈ rowIndices /\ label r = k.
Proof.
  induction rowIndices as [|r rowIndices IH] using rev_ind.
  - simpl. split; [by left | intros [?|(r & Hr & _)]; [done|]].
    by apply elem_of_nil in Hr.
  - rewrite rows_snoc, ObjFacts.elem_of_keys_set, IH. split.
    + intros [->|[?|(r' & Hr' & <-)]]; [right; exists r | by left | right; exists r'];
        (split; [|done]); rewrite elem_of_app, list_elem_of_singleton; auto.
    + intros [?|(r' & Hr' & <-)]; [by right; left|].
      apply elem_of_app in Hr' as [?|Hr']; [right; right; eauto|].
      apply list_elem_of_singleton in Hr' as ->. by left.
Qed.

Lemma rows_values frameCount rowIndices td k v :
  Obj.get (rows frameCount rowIndices td) k = Some v ->
  Obj.get td k = Some v \/
  exists r, r ∈ rowIndices /\ label r = k /\ v = frames frameCount r.
Proof.
  revert v. induction rowIndices as [|r rowIndices IH] using rev_ind; intros v.
  - by left.
  - rewrite rows_snoc. destruct (decide (label r = k)) as [<-|Hne].
    + rewrite ObjFacts.get_set_eq. intros [= <-]. right. exists r.
      by rewrite elem_of_app, list_elem_of_singleton; auto.
    + rewrite ObjFacts.get_set_ne by done. intros Hv.
      apply IH in Hv as [?|(r' & Hr' & ? & ?)]; [by left|].
      right. exists r'. rewrite elem_of_app. auto.
Qed.

Lemma createFrameTextures_rows :
  textureData (createFrameTextures baseTexture frameWidth frameHeight directions)
  = rows (width baseTexture / frameWidth)
         (seq 0 (Z.to_nat (height baseTexture / frameHeight))) [].
Proof. done. Qed.

Lemma frames_length frameCount r : length (frames frameCount r) = Z.to_nat frameCount.
Proof. unfold frames, row_frames. by rewrite length_fmap, length_seq. Qed.

(** Every texture of a row is a frame-sized cut at a column of that row. *)
Lemma frames_elem frameCount r t :
  t ∈ frames frameCount r ->
  exists i, (i < Z.to_nat frameCount)%nat /\
            t = frameTexture baseTexture frameWidth frameHeight r i.
Proof.
  unfold frames, row_frames. intros (i & -> & Hi)%list_elem_of_fmap.
  apply elem_of_seq in Hi. exists i. split; [lia | done].
Qed.

(** A cut at column [i] of row [r] stays inside the image as long as
    [i] and [r] are below the numbers of whole columns and rows. *)
Lemma frameTexture_within r i :
  0 < frameWidth -> 0 < frameHeight ->
  (i < Z.to_nat (width baseTexture / frameWidth))%nat ->
  (r < Z.to_nat (height baseTexture / frameHeight))%nat ->
  within (frame (frameTexture baseTexture frameWidth frameHeight r i)) baseTexture.
Proof.
  intros Hw Hh Hi Hr. unfold within; simpl.
  pose proof (Z.mul_div_le (width baseTexture) frameWidth Hw).
  pose proof (Z.mul_div_le (height baseTexture) frameHeight Hh).
  assert (Z.of_nat i + 1 <= width baseTexture / frameWidth) by lia.
  assert (Z.of_nat r + 1 <= height baseTexture / frameHeight) by lia.
  nia.
Qed.

End Sheet.

(** A sheet at least one frame high yields a mapping with a key. *)
Lemma textureData_nonempty baseTexture frameWidth frameHeight directions :
  0 < frameHeight -> frameHeight <= height baseTexture ->
  textureData (createFrameTextures baseTexture frameWidth frameHeight directions) <> [].
Proof.
  intros Hh Htall Hnil.
  assert (Hrows : 0 < height baseTexture / frameHeight) by (apply Z.div_str_pos; lia).
  assert (Hkey : direction_at directions 0
                 ∈ Obj.keys (textureData (createFrameTextures baseTexture frameWidth
                                             frameHeight directions))).
  { rewrite createFrameTextures_rows, rows_keys.
    right. exists 0%nat. split; [apply elem_of_seq; lia | done]. }
  rewrite Hnil in Hkey. by apply elem_of_nil in Hkey.
Qed.

End SlicerFacts.

(** C9.  For positive frame sizes the slicer reports
    [frameCount = floor(width / frameWidth)], the number of whole frames
    in a row, and every texture it stores is a cut of the given image at
    [(column * frameWidth, row * frameHeight)] of size
    [frameWidth x frameHeight] that lies within the image. *)
Theorem slice_frameCount_and_regions
    (baseTexture : BaseTexture) (frameWidth frameHeight : Z) (directions : list string) :
  0 < frameWidth -> 0 < frameHeight ->
  let r := TextureFactory.createFrameTextures baseTexture frameWidth frameHeight directions in
  (TextureFactory.frameCount r * frameWidth <= width baseTexture
     < (TextureFactory.frameCount r + 1) * frameWidth) /\
  (forall row column : nat,
      Z.of_nat column < TextureFactory.frameCount r ->
      Z.of_nat row < height baseTexture / frameHeight ->
      within (frame (TextureFactory.frameTexture baseTexture frameWidth frameHeight
                       row column)) baseTexture) /\
  forall direction frames t,
    Obj.get (TextureFactory.textureData r) direction = Some frames -> t ∈ frames ->
    source t = baseTexture /\
    (exists row column : nat,
        Z.of_nat column < TextureFactory.frameCount r /\
        Z.of_nat row < height baseTexture / frameHeight /\
        frame t = mkRectangle (Z.of_nat column * frameWidth) (Z.of_nat row * frameHeight)
                              frameWidth frameHeight) /\
    within (frame t) baseTexture.
Proof.
  intros Hw Hh r. split; [|split].
  - subst r; simpl.
    pose proof (Z.mul_div_le (width baseTexture) frameWidth Hw).
    pose proof (Z.mul_succ_div_gt (width baseTexture) frameWidth Hw). lia.
  - intros row column Hc Hr. subst r. simpl in Hc.
    apply SlicerFacts.frameTexture_within; [done | done | lia | lia].
  - intros direction frames t Hget Ht. subst r.
    rewrite SlicerFacts.createFrameTextures_rows in Hget.
    apply SlicerFacts.rows_values in Hget as [Hget|(row & Hrow & _ & ->)]; [done|].
    apply elem_of_seq in Hrow.
    apply SlicerFacts.frames_elem in Ht as (column & Hcol & ->).
    split; [done|]. split.
    + exists row, column. simpl. repeat split; lia.
    + apply SlicerFacts.frameTexture_within; [done | done | done | lia].
Qed.

Lemma slice_frameCount_and_regions_witness :
  0 < 64 /\ 0 < 64 /\
  let r := TextureFactory.createFrameTextures (mkBaseTexture 200 130) 64 64
             ["up"; "left"; "down"; "right"] in
  (TextureFactory.frameCount r * 64 <= 200 < (TextureFactory.frameCount r + 1) * 64) /\
  (forall row column : nat,
      Z.of_nat column < TextureFactory.frameCount r ->
      Z.of_nat row < 130 / 64 ->
      within (frame (TextureFactory.frameTexture (mkBaseTexture 200 130) 64 64
                       row column)) (mkBaseTexture 200 130)) /\
  forall direction frames t,
    Obj.get (TextureFactory.textureData r) direction = Some frames -> t ∈ frames ->
    source t = mkBaseTexture 200 130 /\
    (exists row column : nat,
        Z.of_nat column < TextureFactory.frameCount r /\
        Z.of_nat row < 130 / 64 /\
        frame t = mkRectangle (Z.of_nat column * 64) (Z.of_nat row * 64) 64 64) /\
    within (frame t) (mkBaseTexture 200 130).
Proof.
  split; [lia|]. split; [lia|].
  apply (slice_frameCount_and_regions (mkBaseTexture 200 130) 64 64
           ["up"; "left"; "down"; "right"]); lia.
Defined.

(** C2, as the code has it.  For positive frame sizes the keys of the
    slicer's mapping are exactly the labels of the rows [0 .. rowCount-1],
    where the label of a row is [directions[row]] and, for a row beyond
    the label list, the key "undefined"; rows beyond the list are not
    dropped: when [rowCount] exceeds the number of labels the key
    "undefined" is present and holds the frames of the last row. *)
Theorem slice_row_labels
    (baseTexture : BaseTexture) (frameWidth frameHeight : Z) (directions : list string) :
  0 < frameWidth -> 0 < frameHeight ->
  let r := TextureFactory.createFrameTextures baseTexture frameWidth frameHeight directions in
  let rowCount := height baseTexture / frameHeight in
  (forall k, k ∈ Obj.keys (TextureFactory.textureData r) <->
             exists row : nat, Z.of_nat row < rowCount /\
                               to_key (directions !! row) = k) /\
  (Z.of_nat (length directions) < rowCount ->
   Obj.get (TextureFactory.textureData r) "undefined"
   = Some (TextureFactory.row_frames baseTexture frameWidth frameHeight
             (TextureFactory.frameCount r) (Z.to_nat (rowCount - 1)))).
Proof.
  intros Hw Hh r rowCount. subst r. rewrite SlicerFacts.createFrameTextures_rows.
  fold rowCount. split.
  - intros k. rewrite SlicerFacts.rows_keys. split.
    + intros [Hk|(row & Hrow & <-)]; [by apply elem_of_nil in Hk|].
      apply elem_of_seq in Hrow. exists row. split; [lia | done].
    + intros (row & Hrow & <-). right. exists row. split; [|done].
      apply elem_of_seq. lia.
  - intros Hlen. simpl.
    replace (Z.to_nat rowCount) with (S (Z.to_nat (rowCount - 1))) by lia.
    rewrite seq_S, SlicerFacts.rows_snoc. simpl.
    unfold TextureFactory.direction_at.
    rewrite (lookup_ge_None_2 directions) by lia. simpl.
    apply ObjFacts.get_set_eq.
Qed.

Lemma slice_row_labels_witness :
  0 < 64 /\ 0 < 64 /\
  let r := TextureFactory.createFrameTextures (mkBaseTexture 128 192) 64 64 ["up"] in
  let rowCount := 192 / 64 in
  (forall k, k ∈ Obj.keys (TextureFactory.textureData r) <->
             exists row : nat, Z.of_nat row < rowCount /\ to_key (["up"] !! row) = k) /\
  (Z.of_nat (length ["up"]) < rowCount ->
   Obj.get (TextureFactory.textureData r) "undefined"
   = Some (TextureFactory.row_frames (mkBaseTexture 128 192) 64 64
             (TextureFactory.frameCount r) (Z.to_nat (rowCount - 1)))).
Proof.
  split; [lia|]. split; [lia|].
  apply (slice_row_labels (mkBaseTexture 128 192) 64 64 ["up"]); lia.
Defined.

(** C2 as stated fails: a 64 x 128 sheet cut into 64 x 64 frames with
    the single label "up" has two rows; the second one is kept, under the
    key "undefined", which is not among the labels. *)
Lemma slice_keeps_rows_beyond_labels :
  let r := TextureFactory.createFrameTextures (mkBaseTexture 64 128) 64 64 ["up"] in
  Obj.keys (TextureFactory.textureData r) = ["up"; "undefined"] /\
  Obj.get (TextureFactory.textureData r) "undefined"
  = Some [mkTexture (mkBaseTexture 64 128) (mkRectangle 0 64 64 64)] /\
  ~ (forall k, k ∈ Obj.keys (TextureFactory.textureData r) -> k ∈ ["up"]).
Proof.
  split; [reflexivity|]. split; [reflexivity|].
  intros H. specialize (H "undefined"). vm_compute in H.
  assert (Hin : "undefined" ∈ ["up"; "undefined"]) by (right; left).
  apply H in Hin. apply list_elem_of_singleton in Hin. discriminate.
Qed.

(** C4, as the code has it.  For positive frame sizes every key of the
    slicer's mapping is bound to exactly [frameCount] textures.  An image
    narrower than a frame gives [frameCount = 0], and then each row's
    label is stored with an empty sequence, not left out; an image lower
    than a frame gives a mapping without keys.  The slicer is a total
    function: it returns in every case. *)
Theorem slice_sequence_lengths
    (baseTexture : BaseTexture) (frameWidth frameHeight : Z) (directions : list string) :
  0 < frameWidth -> 0 < frameHeight ->
  let r := TextureFactory.createFrameTextures baseTexture frameWidth frameHeight directions in
  (forall direction frames,
      Obj.get (TextureFactory.textureData r) direction = Some frames ->
      length frames = Z.to_nat (TextureFactory.frameCount r)) /\
  (0 <= width baseTexture < frameWidth ->
   TextureFactory.frameCount r = 0 /\
   (frameHeight <= height baseTexture ->
    Obj.get (TextureFactory.textureData r) (to_key (directions !! 0%nat)) = Some [])) /\
  (0 <= height baseTexture < frameHeight -> TextureFactory.textureData r = []).
Proof.
  intros Hw Hh r.
  assert (Hlen : forall direction frames,
             Obj.get (TextureFactory.textureData r) direction = Some frames ->
             length frames = Z.to_nat (TextureFactory.frameCount r)).
  { intros direction frames Hget. subst r.
    rewrite SlicerFacts.createFrameTextures_rows in Hget.
    apply SlicerFacts.rows_values in Hget as [Hget|(row & _ & _ & ->)]; [done|].
    apply SlicerFacts.frames_length. }
  split; [done|]. split.
  - intros Hnarrow.
    assert (Hfc : TextureFactory.frameCount r = 0) by (by apply Z.div_small).
    split; [done|]. intros Htall.
    assert (Hrows : 0 < height baseTexture / frameHeight)
      by (apply Z.div_str_pos; lia).
    assert (Hkey : to_key (directions !! 0%nat) ∈ Obj.keys (TextureFactory.textureData r)).
    { subst r. rewrite SlicerFacts.createFrameTextures_rows, SlicerFacts.rows_keys.
      right. exists 0%nat. split; [apply elem_of_seq; lia | done]. }
    apply ObjFacts.get_is_Some in Hkey as [frames Hget]. rewrite Hget.
    apply Hlen in Hget. rewrite Hfc in Hget. by destruct frames.
  - intros Hlow. subst r. simpl. by rewrite (Z.div_small (height baseTexture)).
Qed.

Lemma slice_sequence_lengths_witness :
  0 < 64 /\ 0 < 64 /\
  let r := TextureFactory.createFrameTextures (mkBaseTexture 10 64) 64 64 ["up"] in
  (forall direction frames,
      Obj.get (TextureFactory.textureData r) direction = Some frames ->
      length frames = Z.to_nat (TextureFactory.frameCount r)) /\
  (0 <= 10 < 64 ->
   TextureFactory.frameCount r = 0 /\
   (64 <= 64 ->
    Obj.get (TextureFactory.textureData r) (to_key (["up"] !! 0%nat)) = Some [])) /\
  (0 <= 64 < 64 -> TextureFactory.textureData r = []).
Proof.
  split; [lia|]. split; [lia|].
  apply (slice_sequence_lengths (mkBaseTexture 10 64) 64 64 ["up"]); lia.
Defined.

(** C4 as stated fails: a sheet 10 pixels wide and 64 high, cut into
    64 x 64 frames, has one row and no whole frame; the label "up" is
    stored with an empty sequence. *)
Lemma slice_stores_empty_sequence :
  let r := TextureFactory.createFrameTextures (mkBaseTexture 10 64) 64 64 ["up"] in
  r = TextureFactory.mkResult [("up", [])] 0 /\
  Obj.keys (TextureFactory.textureData r) = ["up"] /\
  Obj.get (TextureFactory.textureData r) "up" = Some [].
Proof. repeat split. Qed.

(** ** The controller *)

Module ControllerFacts.

Lemma world_eta w : mkWorld (this w) (console w) = w.
Proof. by destruct w. Qed.

(** The fallback lands on a key of the entry as soon as it has one. *)
Lemma resolve_direction_key self anim direction :
  anim_textures anim <> [] ->
  is_Some (Obj.get (anim_textures anim) (to_key (resolve_direction self anim direction))).
Proof.
  intros Hne. unfold resolve_direction.
  set (requested := match direction with Some d => Some d | None => _ end).
  destruct (Obj.get _ (to_key requested)) eqn:E; [by rewrite E|].
  destruct (head (Obj.keys (anim_textures anim))) as [k|] eqn:Hk.
  - by apply ObjFacts.head_keys_get.
  - by apply ObjFacts.head_keys_None in Hk.
Qed.

(** Without any key the fallback yields [undefined], under which nothing
    is stored. *)
Lemma resolve_direction_empty self anim direction :
  anim_textures anim = [] ->
  resolve_direction self anim direction = None /\
  Obj.get (anim_textures anim) (to_key (resolve_direction self anim direction)) = None.
Proof. intros H. unfold resolve_direction. by rewrite H. Qed.

(** Once committed, the same request resolves to the same direction. *)
Lemma resolve_direction_stable self self' anim direction :
  let d := resolve_direction self anim direction in
  is_Some (Obj.get (anim_textures anim) (to_key d)) ->
  currentDirection self' = d ->
  resolve_direction self' anim direction = d.
Proof.
  intros d [fs Hfs] Hcur. subst d. unfold resolve_direction in *.
  destruct direction as [x|]; [done|]. rewrite Hcur.
  destruct (Obj.get _ (to_key (currentDirection self))) eqn:E.
  - by rewrite E.
  - by rewrite Hfs.
Qed.

(** *** The five ways [changeAnimation] runs *)

Lemma changeAnimation_unknown animationName direction w :
  animations (this w) !! animationName = None ->
  inherited animationName = false ->
  changeAnimation animationName direction w
  = (Normal tt, mkWorld (this w) (console w ++ [error_no_animation animationName])).
Proof.
  intros H Hi. unfold changeAnimation, mbind, M_bind, get_this. by rewrite H, Hi.
Qed.

(** A name the registry does not own but [Object.prototype] has: the
    validation lets it through and reading its textures throws. *)
Lemma changeAnimation_inherited animationName direction w :
  animations (this w) !! animationName = None ->
  inherited animationName = true ->
  changeAnimation animationName direction w
  = (Throw (TypeError_reading
              (to_key (match direction with
                       | None => currentDirection (this w)
                       | Some d => Some d
                       end))), w).
Proof.
  intros H Hi. unfold changeAnimation, mbind, M_bind, get_this. by rewrite H, Hi.
Qed.

Lemma changeAnimation_same animationName direction w anim :
  animations (this w) !! animationName = Some anim ->
  currentAnimation (this w) = Some animationName ->
  currentDirection (this w) = resolve_direction (this w) anim direction ->
  changeAnimation animationName direction w = (Normal tt, w).
Proof.
  intros H Hn Hd. unfold changeAnimation, mbind, M_bind, get_this. rewrite H.
  rewrite bool_decide_false; [done|]. intros [?|?]; congruence.
Qed.

Lemma changeAnimation_swap animationName direction w anim frames :
  animations (this w) !! animationName = Some anim ->
  let d := resolve_direction (this w) anim direction in
  (currentAnimation (this w) <> Some animationName \/ currentDirection (this w) <> d) ->
  Obj.get (anim_textures anim) (to_key d) = Some frames ->
  changeAnimation animationName direction w
  = (Normal tt,
     mkWorld
       (mkCharacter (animations (this w)) (Some animationName) d
          (speed (this w)) (visible (this w))
          (Some frames) (anim_speed anim) (playing (this w))
          (Z.min (currentFrame (this w)) (Z.of_nat (length frames) - 1)))
       (console w)).
Proof.
  intros H d Hchange Hframes. unfold changeAnimation, mbind, M_bind, get_this. rewrite H.
  fold d. rewrite bool_decide_true by done. rewrite Hframes.
  unfold update_this; simpl. by destruct (playing (this w)).
Qed.

Lemma changeAnimation_throw animationName direction w anim :
  animations (this w) !! animationName = Some anim ->
  let d := resolve_direction (this w) anim direction in
  (currentAnimation (this w) <> Some animationName \/ currentDirection (this w) <> d) ->
  Obj.get (anim_textures anim) (to_key d) = None ->
  changeAnimation animationName direction w = (Throw (TypeError_reading "0"), w).
Proof.
  intros H d Hchange Hframes. unfold changeAnimation, mbind, M_bind, get_this. rewrite H.
  fold d. rewrite bool_decide_true by done. by rewrite Hframes.
Qed.

(** With a direction to land on, [changeAnimation] returns: it changes
    nothing when the request is the current pair, and otherwise installs
    the sequence and commits the pair. *)
Lemma changeAnimation_returns animationName direction w anim :
  animations (this w) !! animationName = Some anim ->
  anim_textures anim <> [] ->
  exists w', changeAnimation animationName direction w = (Normal tt, w') /\
    animations (this w') = animations (this w) /\
    currentAnimation (this w') = Some animationName /\
    currentDirection (this w') = resolve_direction (this w) anim direction /\
    console w' = console w.
Proof.
  intros H Hne.
  pose proof (resolve_direction_key (this w) anim direction Hne) as [frames Hframes].
  destruct (decide (currentAnimation (this w) = Some animationName)) as [Hn|Hn];
    [destruct (decide (currentDirection (this w)
                       = resolve_direction (this w) anim direction)) as [Hd|Hd]|].
  - exists w. split; [by eapply changeAnimation_same|]. done.
  - eexists. split; [eapply changeAnimation_swap; eauto|]. done.
  - eexists. split; [eapply changeAnimation_swap; eauto|]. done.
Qed.

(** Every run of [changeAnimation] is one of the five above. *)
Lemma changeAnimation_cases animationName direction w :
  (animations (this w) !! animationName = None /\
   ((inherited animationName = false /\
     changeAnimation animationName direction w
     = (Normal tt, mkWorld (this w) (console w ++ [error_no_animation animationName]))) \/
    (inherited animationName = true /\
     exists e, changeAnimation animationName direction w = (Throw e, w)))) \/
  (exists anim, animations (this w) !! animationName = Some anim /\
     let d := resolve_direction (this w) anim direction in
     (currentAnimation (this w) = Some animationName /\ currentDirection (this w) = d /\
      changeAnimation animationName direction w = (Normal tt, w)) \/
     (exists frames, Obj.get (anim_textures anim) (to_key d) = Some frames /\
        changeAnimation animationName direction w
        = (Normal tt,
           mkWorld
             (mkCharacter (animations (this w)) (Some animationName) d
                (speed (this w)) (visible (this w))
                (Some frames) (anim_speed anim) (playing (this w))
                (Z.min (currentFrame (this w)) (Z.of_nat (length frames) - 1)))
             (console w))) \/
     (Obj.get (anim_textures anim) (to_key d) = None /\
      changeAnimation animationName direction w = (Throw (TypeError_reading "0"), w))).
Proof.
  destruct (animations (this w) !! animationName) as [anim|] eqn:H.
  - right. exists anim. split; [done|]. intros d.
    destruct (decide (currentAnimation (this w) = Some animationName)) as [Hn|Hn];
      [destruct (decide (currentDirection (this w) = d)) as [Hd|Hd]|].
    + left. split; [done|]. split; [done|]. by eapply changeAnimation_same.
    + right. destruct (Obj.get (anim_textures anim) (to_key d)) as [frames|] eqn:E.
      * left. exists frames. split; [done|]. apply changeAnimation_swap; auto.
      * right. split; [done|]. apply (changeAnimation_throw _ _ _ anim); auto.
    + right. destruct (Obj.get (anim_textures anim) (to_key d)) as [frames|] eqn:E.
      * left. exists frames. split; [done|]. apply changeAnimation_swap; auto.
      * right. split; [done|]. apply (changeAnimation_throw _ _ _ anim); auto.
  - left. split; [done|]. destruct (inherited animationName) eqn:Hi.
    + right. split; [done|]. eexists. by apply changeAnimation_inherited.
    + left. split; [done|]. by apply changeAnimation_unknown.
Qed.

(** A call that returns has either left the character alone or installed
    the target sequence and committed the pair. *)
Lemma changeAnimation_all_or_nothing animationName direction w w' :
  changeAnimation animationName direction w = (Normal tt, w') ->
  this w' = this w \/
  exists anim frames,
    animations (this w) !! animationName = Some anim /\
    Obj.get (anim_textures anim) (to_key (resolve_direction (this w) anim direction))
    = Some frames /\
    this w'
    = mkCharacter (animations (this w)) (Some animationName)
        (resolve_direction (this w) anim direction)
        (speed (this w)) (visible (this w))
        (Some frames) (anim_speed anim) (playing (this w))
        (Z.min (currentFrame (this w)) (Z.of_nat (length frames) - 1)).
Proof.
  intros Hrun.
  destruct (changeAnimation_cases animationName direction w)
    as [[_ [[_ E]|[_ [e E]]]]|(anim & H & [(_ & _ & E)|[(frames & Hf & E)|[_ E]]])];
    rewrite E in Hrun; try discriminate; injection Hrun as <-.
  - by left.
  - by left.
  - right. by exists anim, frames.
Qed.

(** No run of [changeAnimation] leaves the recorded state dangling. *)
Lemma changeAnimation_consistent animationName direction w :
  consistent (this w) -> consistent (this (changeAnimation animationName direction w).2).
Proof.
  intros Hc.
  destruct (changeAnimation_cases animationName direction w)
    as [[_ [[_ E]|[_ [e E]]]]|(anim & H & [(_ & _ & E)|[(frames & Hf & E)|[_ E]]])];
    rewrite E; clear E; try done.
  intros name [= <-]. exists anim. split; [done|].
  cbn [snd this currentDirection]. by rewrite Hf.
Qed.

(** The registry is never touched by [changeAnimation]. *)
Lemma changeAnimation_animations animationName direction w :
  animations (this (changeAnimation animationName direction w).2) = animations (this w).
Proof.
  destruct (changeAnimation_cases animationName direction w)
    as [[_ [[_ E]|[_ [e E]]]]|(anim & H & [(_ & _ & E)|[(frames & Hf & E)|[_ E]]])];
    by rewrite E.
Qed.

(** [addAnimation] writes exactly one registry entry, however it ends. *)
Lemma addAnimation_animations name textureData frameCount speed w :
  animations (this (addAnimation name textureData frameCount speed w).2)
  = <[name := mkEntry textureData frameCount
                (default (QArith_base.Qmake 15 100) speed) (Obj.keys textureData)]>
      (animations (this w)).
Proof.
  unfold addAnimation, mbind, M_bind, get_this, update_this. cbn [this console].
  match goal with |- context [falsy ?v] => destruct (falsy v) end; [|done].
  cbn [this console].
  match goal with |- context [changeAnimation ?n ?d ?w2] =>
    pose proof (changeAnimation_animations n d w2) as E;
    destruct (changeAnimation n d w2) as [[[]|e] w3] end; exact E.
Qed.

(** With a direction to start on, [addAnimation] returns. *)
Lemma addAnimation_returns name textureData frameCount speed w :
  textureData <> [] ->
  exists w', addAnimation name textureData frameCount speed w = (Normal tt, w').
Proof.
  intros Hne. unfold addAnimation, mbind, M_bind, get_this, update_this. cbn [this console].
  match goal with |- context [falsy ?v] => destruct (falsy v) end; [|eauto].
  cbn [this console].
  match goal with |- context [changeAnimation ?n ?d ?w2] =>
    destruct (changeAnimation_returns n d w2
                (mkEntry textureData frameCount
                   (default (QArith_base.Qmake 15 100) speed) (Obj.keys textureData)))
      as (w3 & E & _) end.
  - apply lookup_insert_eq.
  - done.
  - rewrite E. eauto.
Qed.

End ControllerFacts.

(** C1.  When [changeAnimation] makes a real change (the name is
    registered, the direction it settles on has a sequence, and the pair
    differs from the current one), the play flag and the frame index [k]
    are the ones read before the host is touched: the host ends with the
    target sequence and speed, at frame [min(k, L2 - 1)] for a sequence of
    [L2] frames (frame 5 when going from frame 9 to 6 frames), playing
    exactly if it was playing before, and the new pair is recorded. *)
Theorem changeAnimation_preserves_frame animationName direction w anim frames :
  animations (this w) !! animationName = Some anim ->
  let d := resolve_direction (this w) anim direction in
  Obj.get (anim_textures anim) (to_key d) = Some frames ->
  (currentAnimation (this w) <> Some animationName \/ currentDirection (this w) <> d) ->
  exists w',
    changeAnimation animationName direction w = (Normal tt, w') /\
    textures (this w') = Some frames /\
    animationSpeed (this w') = anim_speed anim /\
    currentFrame (this w')
      = Z.min (currentFrame (this w)) (Z.of_nat (length frames) - 1) /\
    playing (this w') = playing (this w) /\
    currentAnimation (this w') = Some animationName /\
    currentDirection (this w') = d /\
    (length frames = 6%nat -> currentFrame (this w) = 9 -> currentFrame (this w') = 5).
Proof.
  intros H d Hframes Hchange. eexists. split.
  - by eapply ControllerFacts.changeAnimation_swap.
  - simpl. do 6 (split; [done|]). intros -> ->. reflexivity.
Qed.

(** C6, as the code has it.  For a registered name whose entry has a
    direction, [changeAnimation] returns.  The first call writes the host
    exactly when the pair it settles on is not the recorded one: it then
    installs the target sequence and speed, seeks, and records the pair;
    when the pair is already the recorded one it changes nothing.  From
    then on the same call is a no-op, whatever the sprite has done in the
    meantime: in every world that records this pair it returns with the
    host, the recorded pair, the registry and the console exactly as they
    were; in particular right after the first call. *)
Theorem changeAnimation_twice animationName direction w anim :
  animations (this w) !! animationName = Some anim ->
  anim_textures anim <> [] ->
  let d := resolve_direction (this w) anim direction in
  exists frames w1,
    Obj.get (anim_textures anim) (to_key d) = Some frames /\
    changeAnimation animationName direction w = (Normal tt, w1) /\
    (currentAnimation (this w) = Some animationName /\ currentDirection (this w) = d ->
     w1 = w) /\
    (currentAnimation (this w) <> Some animationName \/ currentDirection (this w) <> d ->
     w1 = mkWorld
            (mkCharacter (animations (this w)) (Some animationName) d
               (speed (this w)) (visible (this w))
               (Some frames) (anim_speed anim) (playing (this w))
               (Z.min (currentFrame (this w)) (Z.of_nat (length frames) - 1)))
            (console w)) /\
    (forall w2,
        animations (this w2) !! animationName = Some anim ->
        currentAnimation (this w2) = Some animationName ->
        currentDirection (this w2) = d ->
        changeAnimation animationName direction w2 = (Normal tt, w2)) /\
    changeAnimation animationName direction w1 = (Normal tt, w1).
Proof.
  intros H Hne d.
  destruct (ControllerFacts.resolve_direction_key (this w) anim direction Hne)
    as [frames Hframes].
  fold d in Hframes.
  assert (Hlater : forall w2,
             animations (this w2) !! animationName = Some anim ->
             currentAnimation (this w2) = Some animationName ->
             currentDirection (this w2) = d ->
             changeAnimation animationName direction w2 = (Normal tt, w2)).
  { intros w2 H2 Hn2 Hd2.
    apply ControllerFacts.changeAnimation_same with anim; [done | done |].
    rewrite Hd2. symmetry.
    apply (ControllerFacts.resolve_direction_stable (this w) (this w2)); [|done].
    fold d. by rewrite Hframes. }
  exists frames.
  destruct (decide (currentAnimation (this w) = Some animationName)) as [Hn|Hn];
    [destruct (decide (currentDirection (this w) = d)) as [Hd|Hd]|].
  - exists w. split; [done|].
    split; [by apply ControllerFacts.changeAnimation_same with anim|].
    split; [done|]. split; [intros [?|?]; done|]. split; [done|]. by apply Hlater.
  - eexists. split; [done|].
    split; [apply (ControllerFacts.changeAnimation_swap _ _ _ anim frames H); [by right|done]|].
    split; [intros [_ ?]; done|]. split; [done|]. split; [done|]. by apply Hlater.
  - eexists. split; [done|].
    split; [apply (ControllerFacts.changeAnimation_swap _ _ _ anim frames H); [by left|done]|].
    split; [intros [? _]; done|]. split; [done|]. split; [done|]. by apply Hlater.
Qed.

(** C6 as stated fails in two ways.  When the pair asked for is already
    the recorded one ("idle" facing down), the two calls write the host
    not once but never.  And for "ghost", registered with a mapping that
    has no direction, the first call throws with nothing recorded, so the
    second call is not a no-op: it is the first call over again. *)
Lemma changeAnimation_twice_writes_never_or_throws :
  (currentAnimation (this hurting) = Some "idle" /\
   currentDirection (this hurting) = Some "down" /\
   changeAnimation "idle" (Some "down") hurting = (Normal tt, hurting)) /\
  (is_Some (animations (this haunted) !! "ghost") /\
   exists e, changeAnimation "ghost" (Some "down") haunted = (Throw e, haunted)).
Proof.
  split.
  - split; [vm_compute; reflexivity|]. split; [vm_compute; reflexivity|].
    vm_compute; reflexivity.
  - split; [vm_compute; eexists; reflexivity|]. eexists. vm_compute; reflexivity.
Qed.

Lemma changeAnimation_preserves_frame_witness :
  let anim := sliced_entry (sheet 6 4) four_ways (QArith_base.Qmake 1 10) in
  let frames := TextureFactory.row_frames (sheet 6 4) 64 64 6 2 in
  let d := resolve_direction (this running) anim None in
  animations (this running) !! "walk" = Some anim /\
  Obj.get (anim_textures anim) (to_key d) = Some frames /\
  (currentAnimation (this running) <> Some "walk" \/ currentDirection (this running) <> d) /\
  length frames = 6%nat /\ currentFrame (this running) = 9 /\
  exists w',
    changeAnimation "walk" None running = (Normal tt, w') /\
    textures (this w') = Some frames /\
    animationSpeed (this w') = anim_speed anim /\
    currentFrame (this w')
      = Z.min (currentFrame (this running)) (Z.of_nat (length frames) - 1) /\
    playing (this w') = playing (this running) /\
    currentAnimation (this w') = Some "walk" /\
    currentDirection (this w') = d /\
    (length frames = 6%nat -> currentFrame (this running) = 9 -> currentFrame (this w') = 5).
Proof.
  intros anim frames d.
  assert (H1 : animations (this running) !! "walk" = Some anim) by (vm_compute; reflexivity).
  assert (H2 : Obj.get (anim_textures anim) (to_key d) = Some frames) by (vm_compute; reflexivity).
  assert (H3 : currentAnimation (this running) <> Some "walk" \/
               currentDirection (this running) <> d) by (left; vm_compute; discriminate).
  split; [exact H1|]. split; [exact H2|]. split; [exact H3|].
  split; [vm_compute; reflexivity|]. split; [vm_compute; reflexivity|].
  exact (changeAnimation_preserves_frame "walk" None running anim frames H1 H2 H3).
Defined.

Lemma changeAnimation_twice_witness :
  let anim := sliced_entry (sheet 6 1) ["down"] (QArith_base.Qmake 15 100) in
  let w := hurting in
  let d := resolve_direction (this w) anim (Some "left") in
  animations (this w) !! "hurt" = Some anim /\
  anim_textures anim <> [] /\
  exists frames w1,
    Obj.get (anim_textures anim) (to_key d) = Some frames /\
    changeAnimation "hurt" (Some "left") w = (Normal tt, w1) /\
    (currentAnimation (this w) = Some "hurt" /\ currentDirection (this w) = d -> w1 = w) /\
    (currentAnimation (this w) <> Some "hurt" \/ currentDirection (this w) <> d ->
     w1 = mkWorld
            (mkCharacter (animations (this w)) (Some "hurt") d
               (speed (this w)) (visible (this w))
               (Some frames) (anim_speed anim) (playing (this w))
               (Z.min (currentFrame (this w)) (Z.of_nat (length frames) - 1)))
            (console w)) /\
    (forall w2,
        animations (this w2) !! "hurt" = Some anim ->
        currentAnimation (this w2) = Some "hurt" ->
        currentDirection (this w2) = d ->
        changeAnimation "hurt" (Some "left") w2 = (Normal tt, w2)) /\
    changeAnimation "hurt" (Some "left") w1 = (Normal tt, w1).
Proof.
  intros anim w d.
  assert (H1 : animations (this w) !! "hurt" = Some anim) by (vm_compute; reflexivity).
  assert (H2 : anim_textures anim <> []) by (vm_compute; discriminate).
  split; [exact H1|]. split; [exact H2|].
  exact (changeAnimation_twice "hurt" (Some "left") hurting anim H1 H2).
Defined.

(** C5.  The failing run: "ghost" is registered with a mapping that has
    no direction key (its sheet is lower than one frame).  Asked for
    facing left, the name passes the validation, "left" is not a key of
    the mapping, and the fallback finds no first key to substitute: the
    transition does not succeed, the call throws, and the recorded pair
    still names "idle". *)
Lemma changeAnimation_fallback_finds_no_direction :
  let w := haunted in
  let r := changeAnimation "ghost" (Some "left") w in
  (exists anim, animations (this w) !! "ghost" = Some anim /\
                Obj.get (anim_textures anim) "left" = None /\
                head (Obj.keys (anim_textures anim)) = None) /\
  (exists e, r.1 = Throw e) /\
  currentAnimation (this r.2) = Some "idle" /\
  currentDirection (this r.2) = Some "down".
Proof.
  intros w r. split; [eexists; repeat split; vm_compute; reflexivity|].
  split; [eexists; vm_compute; reflexivity|].
  split; vm_compute; reflexivity.
Qed.

(** C7.  The failing run: no animation is registered under
    "constructor", but every object inherits a member of that name.  The
    validation [!this.animations[animationName]] lets the name through,
    and reading the direction from the member's missing [textures]
    throws: the unknown name is not reported on the console, the call
    ends with a [TypeError].  The character is left as it was. *)
Lemma changeAnimation_raises_on_inherited_name :
  let w := hurting in
  animations (this w) !! "constructor" = None /\
  changeAnimation "constructor" None w = (Throw (TypeError_reading "down"), w) /\
  message (TypeError_reading "down")
  = "Cannot read properties of undefined (reading 'down')".
Proof.
  intros w. split; [vm_compute; reflexivity|]. split; vm_compute; reflexivity.
Qed.

(** C3, as the code has it.  From a consistent character,
    [changeAnimation] and [changeDirection] always lead to a consistent
    one, and so does [addAnimation] when it registers a name other than
    the current animation or a mapping that has the current direction as
    a key. *)
Theorem consistent_preserved w :
  consistent (this w) ->
  (forall animationName direction,
      consistent (this (changeAnimation animationName direction w).2)) /\
  (forall direction, consistent (this (changeDirection direction w).2)) /\
  (forall name textureData frameCount speed,
      currentAnimation (this w) <> Some name \/
      is_Some (Obj.get textureData (to_key (currentDirection (this w)))) ->
      consistent (this (addAnimation name textureData frameCount speed w).2)).
Proof.
  intros Hc. split; [|split].
  - intros. by apply ControllerFacts.changeAnimation_consistent.
  - intros direction. unfold changeDirection, mbind, M_bind, get_this.
    destruct (currentAnimation (this w)) as [name|] eqn:Hn; [|done].
    destruct (falsy (Some name)); [done|].
    by apply ControllerFacts.changeAnimation_consistent.
  - intros name textureData frameCount sp Hside.
    unfold addAnimation, mbind, M_bind, get_this, update_this. cbn [this console].
    set (entry := mkEntry textureData frameCount _ _).
    set (c1 := with_animations _ (this w)).
    assert (Hreg : animations c1 !! name = Some entry) by apply lookup_insert_eq.
    assert (Hother : forall n, n <> name -> animations c1 !! n = animations (this w) !! n)
      by (intros n Hne; by apply lookup_insert_ne).
    assert (Hc1 : forall n, currentAnimation (this w) = Some n ->
              exists anim, animations c1 !! n = Some anim /\
                is_Some (Obj.get (anim_textures anim) (to_key (currentDirection (this w))))).
    { intros n Hn. destruct (decide (n = name)) as [->|Hne].
      - exists entry. split; [done|]. by destruct Hside.
      - rewrite Hother by done. by apply Hc. }
    change (currentAnimation c1) with (currentAnimation (this w)).
    destruct (falsy (currentAnimation (this w))) eqn:Hfalsy; [|exact Hc1].
    cbn [this console].
    change (currentDirection c1) with (currentDirection (this w)).
    set (w2 := mkWorld (with_visible true c1) (console w)).
    destruct (ControllerFacts.changeAnimation_cases name (currentDirection (this w)) w2)
      as [[E _]|(anim & H & [(_ & _ & E)|[(frames & Hf & E)|[_ E]]])].
    + change (animations (this w2)) with (animations c1) in E. congruence.
    + rewrite E. exact Hc1.
    + rewrite E. intros n [= <-]. exists anim. split; [done|].
      cbn [snd this currentDirection]. by rewrite Hf.
    + rewrite E. exact Hc1.
Qed.

Lemma consistent_preserved_witness :
  consistent (this hurting) /\
  (forall animationName direction,
      consistent (this (changeAnimation animationName direction hurting).2)) /\
  (forall direction, consistent (this (changeDirection direction hurting).2)) /\
  (forall name textureData frameCount speed,
      currentAnimation (this hurting) <> Some name \/
      is_Some (Obj.get textureData (to_key (currentDirection (this hurting)))) ->
      consistent (this (addAnimation name textureData frameCount speed hurting).2)).
Proof.
  assert (H : consistent (this hurting)).
  { intros name Hname. vm_compute in Hname. injection Hname as <-.
    eexists. split; [vm_compute; reflexivity|]. vm_compute. eexists. reflexivity. }
  split; [exact H|]. exact (consistent_preserved hurting H).
Defined.

(** C3 as stated fails: "idle" is registered facing down and becomes
    current; registering "idle" again with a sheet labelled "up" only
    overwrites the entry and nothing else, so the current direction
    "down" is no longer a key of the current animation's mapping. *)
Lemma reregistration_leaves_direction_dangling :
  let w1 := register "idle" (sheet 2 1) ["down"] None fresh in
  let w2 := register "idle" (sheet 2 1) ["up"] None w1 in
  consistent (this w1) /\
  currentAnimation (this w2) = Some "idle" /\
  currentDirection (this w2) = Some "down" /\
  (Obj.keys ∘ anim_textures) <$> animations (this w2) !! "idle" = Some ["up"] /\
  ~ consistent (this w2).
Proof.
  intros w1 w2. split; [|split; [|split; [|split]]]; try (vm_compute; reflexivity).
  - intros name Hname. vm_compute in Hname. injection Hname as <-.
    eexists. split; [vm_compute; reflexivity|]. vm_compute. eexists. reflexivity.
  - intros H. destruct (H "idle") as (anim & Ha & Hk); [vm_compute; reflexivity|].
    vm_compute in Ha. injection Ha as <-. vm_compute in Hk.
    destruct Hk as [frames Hk]. discriminate.
Qed.

(** While a non-empty name is current, [addAnimation] writes the registry
    entry and nothing else. *)
Lemma addAnimation_while_active name textureData frameCount speed w current :
  currentAnimation (this w) = Some current -> current <> EmptyString ->
  addAnimation name textureData frameCount speed w
  = (Normal tt,
     mkWorld
       (with_animations
          (<[name := mkEntry textureData frameCount
                       (default (QArith_base.Qmake 15 100) speed) (Obj.keys textureData)]>
             (animations (this w)))
          (this w))
       (console w)).
Proof.
  intros Hcur Hne. unfold addAnimation, mbind, M_bind, get_this, update_this.
  cbn [this console with_animations currentAnimation]. rewrite Hcur. simpl.
  by rewrite bool_decide_false.
Qed.

(** C10.  The failing run: the first registered name is the empty
    string.  It becomes current, but being falsy it does not count as an
    active animation: registering "run" next makes the sprite switch to
    "run" and replaces the host's frame sequence, although the current
    animation was not [null]. *)
Lemma addAnimation_reactivates_after_empty_name :
  let w1 := register EmptyString (sheet 2 4) four_ways None fresh in
  let w2 := register "run" (sheet 12 4) four_ways None w1 in
  currentAnimation (this w1) = Some EmptyString /\
  textures (this w1) = Some (TextureFactory.row_frames (sheet 2 4) 64 64 2 2) /\
  currentAnimation (this w2) = Some "run" /\
  textures (this w2) = Some (TextureFactory.row_frames (sheet 12 4) 64 64 12 2) /\
  textures (this w2) <> textures (this w1).
Proof.
  intros w1 w2. repeat (split; [vm_compute; reflexivity|]).
  vm_compute. discriminate.
Qed.

(** ** The factory *)

Module FactoryFacts.

Section Loading.
Variable Assets_load : string -> Error + BaseTexture.
Variables (frameW frameH : Z) (directions : list string) (basePath : string).

Let path (animName : string) : string :=
  String.append basePath (String.append animName ".png").
Let sliced (texture : BaseTexture) :=
  TextureFactory.createFrameTextures texture frameW frameH directions.
Let step := load_animation Assets_load frameW frameH directions basePath.

(** A turn whose image fails to load: the failure is recorded with the
    error's message, and the character is not touched. *)
Lemma load_animation_failure loadResults animName config w e :
  Assets_load (path animName) = inl e ->
  step loadResults (animName, config) w
  = (Normal (mkLoadResults (successful loadResults)
                           (failed loadResults ++ [(animName, message e)])
                           (total loadResults)),
     mkWorld (this w) (console w ++ [warn_load_error animName e])).
Proof.
  intros H. unfold step, load_animation, try_catch, mbind, M_bind, await_load.
  fold (path animName). by rewrite H.
Qed.

(** A turn whose image loads ends normally as well: the entry is
    registered, and the name goes to one of the two lists; to the
    successful one whenever the slicing has a direction. *)
Lemma load_animation_loaded loadResults animName config w texture :
  Assets_load (path animName) = inr texture ->
  exists loadResults' w',
    step loadResults (animName, config) w = (Normal loadResults', w') /\
    total loadResults' = total loadResults /\
    animations (this w')
    = <[animName := mkEntry (TextureFactory.textureData (sliced texture))
                      (TextureFactory.frameCount (sliced texture))
                      (default (QArith_base.Qmake 15 100) (cfg_speed config))
                      (Obj.keys (TextureFactory.textureData (sliced texture)))]>
        (animations (this w)) /\
    ((successful loadResults' = successful loadResults ++ [animName] /\
      failed loadResults' = failed loadResults) \/
     (successful loadResults' = successful loadResults /\
      exists msg, failed loadResults' = failed loadResults ++ [(animName, msg)])) /\
    (TextureFactory.textureData (sliced texture) <> [] ->
     successful loadResults' = successful loadResults ++ [animName] /\
     failed loadResults' = failed loadResults).
Proof.
  intros H. unfold step, load_animation, try_catch, mbind, M_bind, await_load.
  fold (path animName). rewrite H. fold (sliced texture).
  pose proof (ControllerFacts.addAnimation_animations animName
                (TextureFactory.textureData (sliced texture))
                (TextureFactory.frameCount (sliced texture)) (cfg_speed config) w) as Hreg.
  pose proof (ControllerFacts.addAnimation_returns animName
                (TextureFactory.textureData (sliced texture))
                (TextureFactory.frameCount (sliced texture)) (cfg_speed config) w) as Hret.
  destruct (addAnimation _ _ _ _ w) as [[[]|e] w1]; cbn [snd] in Hreg.
  - eexists _, _. split; [reflexivity|]. cbn. split; [done|]. split; [done|].
    split; [by left|done].
  - eexists _, _. split; [reflexivity|]. cbn. split; [done|]. split; [done|].
    split; [right; eauto|]. intros Hne. by destruct (Hret Hne).
Qed.

(** The whole loop: it reaches its end whatever fails on the way. *)
Lemma load_all_spec entries : forall loadResults w,
  exists loadResults' w',
    load_all Assets_load frameW frameH directions basePath entries loadResults w
    = (Normal loadResults', w') /\
    total loadResults' = total loadResults /\
    successful loadResults' ++ (failed loadResults').*1
      ≡ₚ (successful loadResults ++ (failed loadResults).*1) ++ entries.*1 /\
    (forall x, x ∈ failed loadResults -> x ∈ failed loadResults') /\
    (forall animName e, animName ∈ entries.*1 -> Assets_load (path animName) = inl e ->
                        (animName, message e) ∈ failed loadResults') /\
    (forall animName, animName ∈ successful loadResults' ->
                      animName ∈ successful loadResults \/
                      animName ∈ entries.*1 /\
                      exists texture, Assets_load (path animName) = inr texture) /\
    (forall animName, is_Some (animations (this w') !! animName) ->
                      is_Some (animations (this w) !! animName) \/
                      animName ∈ entries.*1 /\
                      exists texture, Assets_load (path animName) = inr texture).
Proof.
  induction entries as [|[animName config] entries IH]; intros loadResults w.
  - exists loadResults, w. split; [done|]. split; [done|].
    split; [by rewrite app_nil_r|]. split; [done|].
    split; [by intros ? ? ?%elem_of_nil|]. split; by left.
  - cbn [load_all]. unfold mbind, M_bind. fold step.
    destruct (Assets_load (path animName)) as [e|texture] eqn:Hload.
    + rewrite (load_animation_failure _ _ _ _ _ Hload).
      edestruct IH as (lr' & w' & -> & Htot & Hperm & Hkeep & Hfail & Hsucc & Hreg).
      exists lr', w'. split; [done|]. split; [done|]. cbn in *.
      split; [|split; [|split; [|split]]].
      * rewrite Hperm, fmap_app. cbn. by rewrite <- !app_assoc.
      * intros x Hx. apply Hkeep. rewrite elem_of_app. by left.
      * intros n e' [->|Hn]%elem_of_cons He'; [|by eapply Hfail].
        apply Hkeep. rewrite elem_of_app, list_elem_of_singleton. right.
        congruence.
      * intros n Hn. destruct (Hsucc n Hn) as [?|[? ?]]; [by left|].
        right. split; [by right | done].
      * intros n Hn. destruct (Hreg n Hn) as [?|[? ?]]; [by left|].
        right. split; [by right | done].
    + destruct (load_animation_loaded loadResults animName config w texture Hload)
        as (lr1 & w1 & -> & Htot1 & Hreg1 & Hlists & _).
      edestruct (IH lr1 w1) as (lr' & w' & -> & Htot & Hperm & Hkeep & Hfail & Hsucc & Hreg).
      exists lr', w'. split; [done|]. split; [congruence|]. cbn in *.
      split; [|split; [|split; [|split]]].
      * rewrite Hperm.
        destruct Hlists as [[-> ->]|[-> [msg ->]]].
        -- rewrite <- !app_assoc. apply Permutation_app_head. cbn.
           apply Permutation_middle.
        -- rewrite fmap_app. cbn. by rewrite <- !app_assoc.
      * intros x Hx. apply Hkeep.
        destruct Hlists as [[_ ->]|[_ [msg ->]]]; [done|].
        rewrite elem_of_app. by left.
      * intros n e' [->|Hn]%elem_of_cons He'; [congruence|by eapply Hfail].
      * intros n Hn. destruct (Hsucc n Hn) as [Hn1|[? ?]].
        -- destruct Hlists as [[E _]|[E _]]; rewrite E in Hn1; [|by left].
           apply elem_of_app in Hn1 as [?|Hn1]; [by left|].
           apply list_elem_of_singleton in Hn1 as ->.
           right. split; [by left | eauto].
        -- right. split; [by right | done].
      * intros n Hn. destruct (Hreg n Hn) as [Hn1|[? ?]].
        -- rewrite Hreg1 in Hn1. destruct (decide (animName = n)) as [<-|Hne].
           ++ right. split; [by left | eauto].
           ++ left. by rewrite lookup_insert_ne in Hn1.
        -- right. split; [by right | done].
Qed.

End Loading.

End FactoryFacts.

(** C8.  The failing run: of the two configured animations the image of
    "a" loads and that of "b" does not, but the sheet of "a" is lower
    than one frame.  Its slicing has no direction, the activation inside
    [addAnimation] throws after the entry has been registered and the
    sprite made visible, and the factory's handler lists "a" under the
    failed ones: nothing is successful, although "a" is the only
    registered animation and its image did load. *)
Lemma factory_lists_loaded_sheet_as_failed :
  only_low_a "pngs/a.png" = inr (mkBaseTexture 128 10) /\
  only_low_a "pngs/b.png" = inl (mkError "not found") /\
  exists character loadResults console',
    CreateCharacterWithManyAnimations only_low_a
      [("a", mkConfig None); ("b", mkConfig None)] 64 64 four_ways None []
    = (Normal (character, loadResults), console') /\
    successful loadResults = [] /\
    (failed loadResults).*1 = ["a"; "b"] /\
    total loadResults = 2%nat /\
    (anim_textures <$> animations character !! "a") = Some [] /\
    animations character !! "b" = None /\
    visible character = true /\
    currentAnimation character = None.
Proof.
  split; [vm_compute; reflexivity|]. split; [vm_compute; reflexivity|].
  eexists _, _, _. split; [vm_compute; reflexivity|].
  repeat split; vm_compute; reflexivity.
Qed.

(** * Further properties of the code *)

(** ** The slicer: which row a key ends up with *)

Module SlicerOrder.
Import TextureFactory.

Section Sheet.
Variables (baseTexture : BaseTexture) (frameWidth frameHeight : Z).
Variable directions : list string.
Variable frameCount : Z.

Let frames := row_frames baseTexture frameWidth frameHeight frameCount.
Let label := direction_at directions.
Let rows := run_rows baseTexture frameWidth frameHeight directions frameCount.

(** A row keeps its key as long as no later row has the same label. *)
Lemma rows_last later : forall earlier td r,
  (forall r', r' ∈ later -> label r' <> label r) ->
  Obj.get (rows (earlier ++ r :: later) td) (label r) = Some (frames r).
Proof.
  induction later as [|x later IH] using rev_ind; intros earlier td r Hlater.
  - unfold rows. rewrite SlicerFacts.rows_snoc. apply ObjFacts.get_set_eq.
  - replace (earlier ++ r :: later ++ [x]) with ((earlier ++ r :: later) ++ [x])
      by (by rewrite <- app_assoc).
    unfold rows. rewrite SlicerFacts.rows_snoc.
    rewrite ObjFacts.get_set_ne.
    + apply IH. intros r' Hr'. apply Hlater. rewrite elem_of_app. by left.
    + apply Hlater. rewrite elem_of_app, list_elem_of_singleton. by right.
Qed.

(** Rows with pairwise different labels, none of them a key yet, add
    their labels at the end, in row order. *)
Lemma rows_keys_order rowIndices : forall td,
  NoDup (Obj.keys td ++ (label <$> rowIndices)) ->
  Obj.keys (rows rowIndices td) = Obj.keys td ++ (label <$> rowIndices).
Proof.
  induction rowIndices as [|r rowIndices IH] using rev_ind; intros td Hnd.
  - by rewrite app_nil_r.
  - rewrite fmap_app in *. cbn [fmap list_fmap] in *. rewrite app_assoc in *.
    apply NoDup_app in Hnd as (Hnd & Hfresh & _).
    unfold rows. rewrite SlicerFacts.rows_snoc, ObjFacts.keys_set.
    fold rows. rewrite (IH td Hnd). change (direction_at directions r) with (label r).
    destruct (Obj.get (rows rowIndices td) (label r)) eqn:E; [|done].
    exfalso. assert (Hin : label r ∈ Obj.keys (rows rowIndices td))
      by (apply ObjFacts.get_is_Some; by rewrite E).
    rewrite (IH td Hnd) in Hin. apply (Hfresh _ Hin). by left.
Qed.

Lemma labels_take n :
  (n <= length directions)%nat -> label <$> seq 0 n = take n directions.
Proof.
  induction n as [|n IH]; intros Hn; [done|].
  rewrite seq_S, fmap_app, IH by lia. cbn.
  destruct (lookup_lt_is_Some_2 directions n) as [d Hd]; [lia|].
  rewrite (take_S_r _ _ _ Hd). unfold label, direction_at. by rewrite Hd.
Qed.

End Sheet.

End SlicerOrder.

(** X1.  When several rows of a sheet carry the same label (a label
    repeated in [directions], or several rows beyond the list, which all
    read "undefined"), the key holds the frames of the last such row:
    a row keeps its key exactly if no later row has the same label. *)
Theorem slice_last_row_wins
    (baseTexture : BaseTexture) (frameWidth frameHeight : Z) (directions : list string)
    (row : nat) :
  0 < frameWidth -> 0 < frameHeight ->
  Z.of_nat row < height baseTexture / frameHeight ->
  (forall row' : nat, (row < row')%nat ->
                      Z.of_nat row' < height baseTexture / frameHeight ->
                      to_key (directions !! row') <> to_key (directions !! row)) ->
  let r := TextureFactory.createFrameTextures baseTexture frameWidth frameHeight directions in
  Obj.get (TextureFactory.textureData r) (to_key (directions !! row))
  = Some (TextureFactory.row_frames baseTexture frameWidth frameHeight
            (TextureFactory.frameCount r) row).
Proof.
  intros Hw Hh Hrow Hlast r. subst r. rewrite SlicerFacts.createFrameTextures_rows.
  set (n := Z.to_nat (height baseTexture / frameHeight)).
  assert (Hsplit : seq 0 n = seq 0 row ++ row :: seq (S row) (n - S row)).
  { replace n with (row + S (n - S row))%nat at 1 by lia.
    by rewrite seq_app, <- cons_seq. }
  rewrite Hsplit. apply SlicerOrder.rows_last.
  intros row' Hin. apply elem_of_seq in Hin. apply Hlast; lia.
Qed.

Lemma slice_last_row_wins_witness :
  0 < 64 /\ 0 < 64 /\ Z.of_nat 1 < 192 / 64 /\
  (forall row' : nat, (1 < row')%nat -> Z.of_nat row' < 192 / 64 ->
                      to_key (["up"; "up"; "left"] !! row') <> to_key (["up"; "up"; "left"] !! 1%nat)) /\
  let r := TextureFactory.createFrameTextures (mkBaseTexture 128 192) 64 64
             ["up"; "up"; "left"] in
  Obj.get (TextureFactory.textureData r) (to_key (["up"; "up"; "left"] !! 1%nat))
  = Some (TextureFactory.row_frames (mkBaseTexture 128 192) 64 64
            (TextureFactory.frameCount r) 1).
Proof.
  assert (H1 : 0 < 64) by lia.
  assert (H2 : Z.of_nat 1 < 192 / 64) by (vm_compute; reflexivity).
  assert (H3 : forall row' : nat, (1 < row')%nat -> Z.of_nat row' < 192 / 64 ->
             to_key (["up"; "up"; "left"] !! row') <> to_key (["up"; "up"; "left"] !! 1%nat)).
  { intros row' Hlo Hhi.
    assert (row' = 2%nat) as -> by (change (192 / 64) with 3 in Hhi; lia).
    vm_compute. discriminate. }
  split; [exact H1|]. split; [exact H1|]. split; [exact H2|]. split; [exact H3|].
  exact (slice_last_row_wins (mkBaseTexture 128 192) 64 64 ["up"; "up"; "left"] 1
           H1 H1 H2 H3).
Defined.

(** X2.  A sheet with no more rows than labels, the labels of its rows
    being pairwise different, is cut into exactly one key per row, in
    row order (the first [rowCount] labels), and the key of row [r] holds
    the [frameCount] frames of that row.  In particular a sheet of
    [frameWidth * N] by [frameHeight * len(directions)] pixels yields the
    keys [directions], each with [N] frames. *)
Theorem slice_one_key_per_row
    (baseTexture : BaseTexture) (frameWidth frameHeight : Z) (directions : list string) :
  0 < frameWidth -> 0 < frameHeight ->
  let r := TextureFactory.createFrameTextures baseTexture frameWidth frameHeight directions in
  let rowCount := Z.to_nat (height baseTexture / frameHeight) in
  (rowCount <= length directions)%nat ->
  NoDup (take rowCount directions) ->
  Obj.keys (TextureFactory.textureData r) = take rowCount directions /\
  (forall (row : nat) d,
      (row < rowCount)%nat -> directions !! row = Some d ->
      Obj.get (TextureFactory.textureData r) d
      = Some (TextureFactory.row_frames baseTexture frameWidth frameHeight
                (TextureFactory.frameCount r) row)) /\
  (forall N : Z,
      0 <= N -> width baseTexture = frameWidth * N ->
      height baseTexture = frameHeight * Z.of_nat (length directions) ->
      TextureFactory.frameCount r = N /\
      Obj.keys (TextureFactory.textureData r) = directions /\
      forall d frames, Obj.get (TextureFactory.textureData r) d = Some frames ->
                       Z.of_nat (length frames) = N).
Proof.
  intros Hw Hh r rowCount Hle Hnd.
  assert (Hkeys : Obj.keys (TextureFactory.textureData r) = take rowCount directions).
  { subst r. rewrite SlicerFacts.createFrameTextures_rows.
    rewrite SlicerOrder.rows_keys_order; cbn [Obj.keys fmap list_fmap app].
    - by apply SlicerOrder.labels_take.
    - by rewrite SlicerOrder.labels_take. }
  split; [exact Hkeys|]. split.
  - intros row d Hrow Hd. subst r. rewrite SlicerFacts.createFrameTextures_rows.
    fold rowCount.
    assert (Hsplit : seq 0 rowCount = seq 0 row ++ row :: seq (S row) (rowCount - S row)).
    { replace rowCount with (row + S (rowCount - S row))%nat at 1 by lia.
      by rewrite seq_app, <- cons_seq. }
    rewrite Hsplit.
    replace d with (TextureFactory.direction_at directions row)
      by (unfold TextureFactory.direction_at; by rewrite Hd).
    apply SlicerOrder.rows_last. intros row' Hin. apply elem_of_seq in Hin.
    unfold TextureFactory.direction_at. rewrite Hd.
    destruct (lookup_lt_is_Some_2 directions row') as [d' Hd']; [lia|].
    rewrite Hd'. cbn. intros ->.
    assert (Heq : row' = row); [|lia].
    eapply NoDup_lookup; [exact Hnd | |]; rewrite lookup_take_lt by lia; eauto.
  - intros N HN Hwidth Hheight.
    assert (HfN : TextureFactory.frameCount r = N).
    { subst r. cbn. rewrite Hwidth, Z.mul_comm. apply Z.div_mul. lia. }
    assert (Hrows : rowCount = length directions).
    { subst rowCount. rewrite Hheight, Z.mul_comm, Z.div_mul by lia. lia. }
    split; [exact HfN|]. split.
    + rewrite Hkeys, Hrows. apply firstn_all.
    + intros d frames Hget. subst r.
      rewrite SlicerFacts.createFrameTextures_rows in Hget.
      apply SlicerFacts.rows_values in Hget as [Hget|(row & _ & _ & ->)]; [done|].
      rewrite SlicerFacts.frames_length. cbn in HfN. rewrite HfN. lia.
Qed.

Lemma slice_one_key_per_row_witness :
  0 < 64 /\ 0 < 64 /\
  let r := TextureFactory.createFrameTextures (sheet 6 4) 64 64 four_ways in
  let rowCount := Z.to_nat (height (sheet 6 4) / 64) in
  (rowCount <= length four_ways)%nat /\
  NoDup (take rowCount four_ways) /\
  Obj.keys (TextureFactory.textureData r) = take rowCount four_ways /\
  (forall (row : nat) d,
      (row < rowCount)%nat -> four_ways !! row = Some d ->
      Obj.get (TextureFactory.textureData r) d
      = Some (TextureFactory.row_frames (sheet 6 4) 64 64
                (TextureFactory.frameCount r) row)) /\
  (forall N : Z,
      0 <= N -> width (sheet 6 4) = 64 * N ->
      height (sheet 6 4) = 64 * Z.of_nat (length four_ways) ->
      TextureFactory.frameCount r = N /\
      Obj.keys (TextureFactory.textureData r) = four_ways /\
      forall d frames, Obj.get (TextureFactory.textureData r) d = Some frames ->
                       Z.of_nat (length frames) = N).
Proof.
  assert (H1 : 0 < 64) by lia.
  assert (H2 : (Z.to_nat (height (sheet 6 4) / 64) <= length four_ways)%nat)
    by (vm_compute; lia).
  assert (H3 : NoDup (take (Z.to_nat (height (sheet 6 4) / 64)) four_ways)).
  { vm_compute. repeat constructor; rewrite ?elem_of_cons, ?elem_of_nil; intuition discriminate. }
  split; [exact H1|]. split; [exact H1|]. intros r rowCount.
  split; [exact H2|]. split; [exact H3|].
  exact (slice_one_key_per_row (sheet 6 4) 64 64 four_ways H1 H1 H2 H3).
Defined.

(** X3.  The frames stored under a key are the cuts of one row, side by
    side: the texture at index [i] is the [frameWidth] by [frameHeight]
    region at [x = i * frameWidth] of that row, and two frames at
    different indices share no pixel. *)
Theorem slice_frames_side_by_side
    (baseTexture : BaseTexture) (frameWidth frameHeight : Z) (directions : list string)
    (direction : string) (frames : list Texture) :
  0 < frameWidth -> 0 < frameHeight ->
  Obj.get (TextureFactory.textureData
             (TextureFactory.createFrameTextures baseTexture frameWidth frameHeight
                directions)) direction = Some frames ->
  exists row : nat,
    (forall (i : nat) t,
        frames !! i = Some t ->
        t = mkTexture baseTexture
              (mkRectangle (Z.of_nat i * frameWidth) (Z.of_nat row * frameHeight)
                           frameWidth frameHeight)) /\
    (forall (i j : nat) t t',
        i <> j -> frames !! i = Some t -> frames !! j = Some t' ->
        disjoint (frame t) (frame t')).
Proof.
  intros Hw Hh Hget. rewrite SlicerFacts.createFrameTextures_rows in Hget.
  apply SlicerFacts.rows_values in Hget as [Hget|(row & _ & _ & ->)]; [done|].
  exists row.
  assert (Hat : forall (i : nat) t,
             TextureFactory.row_frames baseTexture frameWidth frameHeight
               (width baseTexture / frameWidth) row !! i = Some t ->
             t = mkTexture baseTexture
                   (mkRectangle (Z.of_nat i * frameWidth) (Z.of_nat row * frameHeight)
                                frameWidth frameHeight)).
  { intros i t Hi. unfold TextureFactory.row_frames in Hi.
    rewrite list_lookup_fmap in Hi.
    destruct (seq 0 (Z.to_nat (width baseTexture / frameWidth)) !! i) as [c|] eqn:Hc;
      [|done].
    apply lookup_seq in Hc as [-> _]. by injection Hi as <-. }
  split; [exact Hat|].
  intros i j t t' Hne Hi Hj. apply Hat in Hi as ->. apply Hat in Hj as ->.
  unfold disjoint; cbn. destruct (decide (i < j)%nat); [left | right; left]; nia.
Qed.

Lemma slice_frames_side_by_side_witness :
  0 < 64 /\ 0 < 64 /\
  Obj.get (TextureFactory.textureData
             (TextureFactory.createFrameTextures (sheet 2 4) 64 64 four_ways)) "left"
  = Some (TextureFactory.row_frames (sheet 2 4) 64 64 2 1) /\
  exists row : nat,
    (forall (i : nat) t,
        TextureFactory.row_frames (sheet 2 4) 64 64 2 1 !! i = Some t ->
        t = mkTexture (sheet 2 4)
              (mkRectangle (Z.of_nat i * 64) (Z.of_nat row * 64) 64 64)) /\
    (forall (i j : nat) t t',
        i <> j -> TextureFactory.row_frames (sheet 2 4) 64 64 2 1 !! i = Some t ->
        TextureFactory.row_frames (sheet 2 4) 64 64 2 1 !! j = Some t' ->
        disjoint (frame t) (frame t')).
Proof.
  assert (H1 : 0 < 64) by lia.
  assert (H2 : Obj.get (TextureFactory.textureData
                 (TextureFactory.createFrameTextures (sheet 2 4) 64 64 four_ways)) "left"
               = Some (TextureFactory.row_frames (sheet 2 4) 64 64 2 1))
    by (vm_compute; reflexivity).
  split; [exact H1|]. split; [exact H1|]. split; [exact H2|].
  exact (slice_frames_side_by_side (sheet 2 4) 64 64 four_ways "left" _ H1 H1 H2).
Defined.

(** A sheet at least one frame wide has no empty sequence. *)
Lemma sliced_sequences_nonempty baseTexture frameWidth frameHeight directions d frames :
  0 < frameWidth -> frameWidth <= width baseTexture ->
  Obj.get (TextureFactory.textureData
             (TextureFactory.createFrameTextures baseTexture frameWidth frameHeight
                directions)) d = Some frames ->
  frames <> [].
Proof.
  intros Hw Hwide Hget. rewrite SlicerFacts.createFrameTextures_rows in Hget.
  apply SlicerFacts.rows_values in Hget as [Hget|(row & _ & _ & ->)]; [done|].
  intros Hnil. apply (f_equal length) in Hnil.
  rewrite SlicerFacts.frames_length in Hnil. cbn in Hnil.
  assert (0 < width baseTexture / frameWidth) by (apply Z.div_str_pos; lia). lia.
Qed.

(** ** The controller: what a transition does and does not touch *)

(** X4.  When none of the sequences registered under the name is empty,
    [changeAnimation] throws in exactly two situations: the name is not
    registered but is the name of a member of [Object.prototype]; or the
    name is registered, its entry has no direction key at all, and the
    request is not already the recorded pair (for such an entry the pair
    can only agree when the current direction is [undefined]).  In every
    other case it returns.  A call that throws has changed nothing. *)
Theorem changeAnimation_raises_iff animationName direction w :
  (forall anim d frames,
      animations (this w) !! animationName = Some anim ->
      Obj.get (anim_textures anim) d = Some frames -> frames <> []) ->
  ((exists e w', changeAnimation animationName direction w = (Throw e, w')) <->
   (animations (this w) !! animationName = None /\ animationName ∈ Object_prototype) \/
   (exists anim,
       animations (this w) !! animationName = Some anim /\
       anim_textures anim = [] /\
       (currentAnimation (this w) <> Some animationName \/
        currentDirection (this w) <> None))) /\
  (forall e w', changeAnimation animationName direction w = (Throw e, w') -> w' = w).
Proof.
  intros _. split; [split|].
  - intros (e & w' & Hrun).
    destruct (animations (this w) !! animationName) as [anim|] eqn:H.
    + right. exists anim. split; [done|].
      destruct (anim_textures anim) as [|entry rest] eqn:Htd.
      * split; [done|].
        destruct (ControllerFacts.resolve_direction_empty (this w) anim direction Htd)
          as [Hres _].
        destruct (decide (currentAnimation (this w) = Some animationName)) as [Hn|Hn];
          [|by left].
        destruct (decide (currentDirection (this w) = None)) as [Hd|Hd]; [|by right].
        rewrite (ControllerFacts.changeAnimation_same _ _ _ anim H Hn) in Hrun
          by congruence.
        discriminate.
      * destruct (ControllerFacts.changeAnimation_returns animationName direction w anim H)
          as (w1 & Hret & _); [by rewrite Htd|]. congruence.
    + left. split; [done|]. destruct (inherited animationName) eqn:Hi.
      * unfold inherited in Hi. by apply bool_decide_eq_true in Hi.
      * rewrite ControllerFacts.changeAnimation_unknown in Hrun by done. discriminate.
  - intros [[H Hin]|(anim & H & Htd & Hchange)].
    + eexists _, _. apply ControllerFacts.changeAnimation_inherited; [done|].
      unfold inherited. by apply bool_decide_eq_true.
    + destruct (ControllerFacts.resolve_direction_empty (this w) anim direction Htd)
        as [Hres Hnone].
      eexists _, _. apply (ControllerFacts.changeAnimation_throw _ _ _ anim H).
      * by rewrite Hres.
      * exact Hnone.
  - intros e w' Hrun.
    destruct (ControllerFacts.changeAnimation_cases animationName direction w)
      as [[_ [[_ E]|[_ [e' E]]]]|(anim & H & [(_ & _ & E)|[(frames & Hf & E)|[_ E]]])];
      rewrite E in Hrun; congruence.
Qed.

Lemma changeAnimation_raises_iff_witness :
  let w := haunted in
  (forall anim d frames,
      animations (this w) !! "ghost" = Some anim ->
      Obj.get (anim_textures anim) d = Some frames -> frames <> []) /\
  ((exists e w', changeAnimation "ghost" None w = (Throw e, w')) <->
   (animations (this w) !! "ghost" = None /\ "ghost" ∈ Object_prototype) \/
   (exists anim,
       animations (this w) !! "ghost" = Some anim /\
       anim_textures anim = [] /\
       (currentAnimation (this w) <> Some "ghost" \/
        currentDirection (this w) <> None))) /\
  (forall e w', changeAnimation "ghost" None w = (Throw e, w') -> w' = w).
Proof.
  intros w.
  assert (H : forall anim d frames,
             animations (this w) !! "ghost" = Some anim ->
             Obj.get (anim_textures anim) d = Some frames -> frames <> []).
  { intros anim d frames Ha. vm_compute in Ha. injection Ha as <-. discriminate. }
  split; [exact H|].
  exact (changeAnimation_raises_iff "ghost" None haunted H).
Defined.

(** X5.  Whatever [changeAnimation] does, it leaves the registry, the
    locomotion speed and the visibility alone.  When it returns, the
    sprite is playing exactly if it was playing before and the frame
    index has not grown.  The console gains a line only for an unknown
    name. *)
Theorem changeAnimation_leaves_alone animationName direction w :
  let r := changeAnimation animationName direction w in
  animations (this r.2) = animations (this w) /\
  speed (this r.2) = speed (this w) /\
  visible (this r.2) = visible (this w) /\
  (r.1 = Normal tt ->
   playing (this r.2) = playing (this w) /\
   currentFrame (this r.2) <= currentFrame (this w)) /\
  (console r.2 = console w \/
   animations (this w) !! animationName = None /\
   console r.2 = console w ++ [error_no_animation animationName]).
Proof.
  intros r. subst r.
  destruct (ControllerFacts.changeAnimation_cases animationName direction w)
    as [[H [[_ E]|[_ [e E]]]]|(anim & H & [(_ & _ & E)|[(frames & Hf & E)|[_ E]]])];
    rewrite E; cbn.
  - do 3 (split; [done|]). split; [intros _; split; [done | lia] | by right].
  - do 3 (split; [done|]). split; [done | by left].
  - do 3 (split; [done|]). split; [intros _; split; [done | lia] | by left].
  - do 3 (split; [done|]). split; [intros _; split; [done | lia] | by left].
  - do 3 (split; [done|]). split; [done | by left].
Qed.

(** X6.  As long as the sequences of the target entry are not empty, a
    sprite that shows a frame of its sequence still does so after
    [changeAnimation]: the call returns, the frame index is a valid index
    of the sequence the sprite then holds, and it is the old index
    whenever that one fits. *)
Theorem changeAnimation_keeps_frame_in_range animationName direction w anim :
  animations (this w) !! animationName = Some anim ->
  anim_textures anim <> [] ->
  (forall d frames, Obj.get (anim_textures anim) d = Some frames -> frames <> []) ->
  frame_in_range (this w) ->
  exists w',
    changeAnimation animationName direction w = (Normal tt, w') /\
    frame_in_range (this w') /\
    (forall frames, textures (this w') = Some frames ->
                    currentFrame (this w) < Z.of_nat (length frames) ->
                    currentFrame (this w') = currentFrame (this w)).
Proof.
  intros H Hne Hseq (old & Hold & Hrange).
  destruct (ControllerFacts.changeAnimation_cases animationName direction w)
    as [[H' _]|(anim' & H' & Hcases)]; [congruence|].
  assert (anim' = anim) as -> by congruence. cbn zeta in Hcases.
  destruct Hcases as [(_ & _ & E)|[(frames & Hf & E)|[Hnone _]]].
  - exists w. split; [done|]. split; [by exists old|]. done.
  - eexists. split; [exact E|]. cbn [this textures currentFrame].
    pose proof (Hseq _ _ Hf) as Hnonempty.
    assert (0 < Z.of_nat (length frames)) by (destruct frames; [done | cbn; lia]).
    split.
    + exists frames. cbn [this textures currentFrame]. split; [done|]. lia.
    + cbn [this textures currentFrame]. intros frames' [= <-] Hfits. lia.
  - destruct (ControllerFacts.resolve_direction_key (this w) anim direction Hne) as [x Hx].
    congruence.
Qed.

Lemma changeAnimation_keeps_frame_in_range_witness :
  let anim := sliced_entry (sheet 6 4) four_ways (QArith_base.Qmake 1 10) in
  animations (this running) !! "walk" = Some anim /\
  anim_textures anim <> [] /\
  (forall d frames, Obj.get (anim_textures anim) d = Some frames -> frames <> []) /\
  frame_in_range (this running) /\
  exists w',
    changeAnimation "walk" None running = (Normal tt, w') /\
    frame_in_range (this w') /\
    (forall frames, textures (this w') = Some frames ->
                    currentFrame (this running) < Z.of_nat (length frames) ->
                    currentFrame (this w') = currentFrame (this running)).
Proof.
  intros anim.
  assert (H1 : animations (this running) !! "walk" = Some anim) by (vm_compute; reflexivity).
  assert (H2 : anim_textures anim <> []) by (vm_compute; discriminate).
  assert (H3 : forall d frames, Obj.get (anim_textures anim) d = Some frames -> frames <> []).
  { intros d frames Hget.
    apply (sliced_sequences_nonempty (sheet 6 4) 64 64 four_ways d frames);
      [lia | vm_compute; discriminate | exact Hget]. }
  assert (H4 : frame_in_range (this running)).
  { eexists. split; [vm_compute; reflexivity|]. vm_compute. split; [discriminate | reflexivity]. }
  split; [exact H1|]. split; [exact H2|]. split; [exact H3|]. split; [exact H4|].
  exact (changeAnimation_keeps_frame_in_range "walk" None running anim H1 H2 H3 H4).
Defined.

(** X7.  Whatever state the character is in, also with a dangling
    direction, [changeAnimation] on a registered name whose entry has a
    direction returns with a consistent record: the name is current and
    the current direction is a key of its mapping. *)
Theorem changeAnimation_repairs animationName direction w anim :
  animations (this w) !! animationName = Some anim ->
  anim_textures anim <> [] ->
  exists w',
    changeAnimation animationName direction w = (Normal tt, w') /\
    currentAnimation (this w') = Some animationName /\
    consistent (this w').
Proof.
  intros H Hne.
  destruct (ControllerFacts.changeAnimation_returns animationName direction w anim H Hne)
    as (w' & Hrun & Hreg & Hn & Hd & _).
  exists w'. split; [done|]. split; [done|].
  intros name Hname. rewrite Hn in Hname. injection Hname as <-.
  exists anim. split; [by rewrite Hreg|]. rewrite Hd.
  by apply ControllerFacts.resolve_direction_key.
Qed.

Lemma changeAnimation_repairs_witness :
  let anim := sliced_entry (sheet 2 1) ["up"] (QArith_base.Qmake 15 100) in
  animations (this dangling) !! "idle" = Some anim /\
  anim_textures anim <> [] /\
  ~ consistent (this dangling) /\
  exists w',
    changeAnimation "idle" None dangling = (Normal tt, w') /\
    currentAnimation (this w') = Some "idle" /\
    consistent (this w').
Proof.
  intros anim.
  assert (H1 : animations (this dangling) !! "idle" = Some anim) by (vm_compute; reflexivity).
  assert (H2 : anim_textures anim <> []) by (vm_compute; discriminate).
  split; [exact H1|]. split; [exact H2|]. split.
  - intros H. destruct (H "idle") as (e & He & Hk); [vm_compute; reflexivity|].
    vm_compute in He. injection He as <-. vm_compute in Hk.
    destruct Hk as [frames Hk]. discriminate.
  - exact (changeAnimation_repairs "idle" None dangling anim H1 H2).
Defined.

(** X8.  While a (non-empty) animation name is current and its entry has
    the requested direction, [changeDirection] returns with the same
    animation facing that direction and the registry untouched; a request
    for the direction already current changes nothing, and any other one
    installs that direction's sequence at frame [min(k, L - 1)] with the
    play flag kept and the entry's speed set. *)
Theorem changeDirection_turns direction w current anim frames :
  currentAnimation (this w) = Some current -> current <> EmptyString ->
  animations (this w) !! current = Some anim ->
  Obj.get (anim_textures anim) direction = Some frames ->
  exists w',
    changeDirection (Some direction) w = (Normal tt, w') /\
    currentAnimation (this w') = Some current /\
    currentDirection (this w') = Some direction /\
    animations (this w') = animations (this w) /\
    (currentDirection (this w) = Some direction -> w' = w) /\
    (currentDirection (this w) <> Some direction ->
     textures (this w') = Some frames /\
     animationSpeed (this w') = anim_speed anim /\
     playing (this w') = playing (this w) /\
     currentFrame (this w')
     = Z.min (currentFrame (this w)) (Z.of_nat (length frames) - 1)).
Proof.
  intros Hcur Hne H Hframes.
  assert (Hres : resolve_direction (this w) anim (Some direction) = Some direction).
  { unfold resolve_direction. cbn. by rewrite Hframes. }
  unfold changeDirection, mbind, M_bind, get_this. rewrite Hcur. cbn [falsy].
  rewrite bool_decide_false by done.
  destruct (decide (currentDirection (this w) = Some direction)) as [Hd|Hd].
  - exists w. split; [apply (ControllerFacts.changeAnimation_same _ _ _ anim H Hcur);
                      congruence|].
    do 3 (split; [done|]). split; done.
  - eexists. split.
    + apply (ControllerFacts.changeAnimation_swap _ _ _ anim frames H);
        rewrite Hres; [by right | done].
    + cbn. rewrite Hres. do 3 (split; [done|]). split; done.
Qed.

Lemma changeDirection_turns_witness :
  let anim := sliced_entry (sheet 12 4) four_ways (QArith_base.Qmake 15 100) in
  let frames := TextureFactory.row_frames (sheet 12 4) 64 64 12 0 in
  currentAnimation (this running) = Some "run" /\ "run" <> EmptyString /\
  animations (this running) !! "run" = Some anim /\
  Obj.get (anim_textures anim) "up" = Some frames /\
  exists w',
    changeDirection (Some "up") running = (Normal tt, w') /\
    currentAnimation (this w') = Some "run" /\
    currentDirection (this w') = Some "up" /\
    animations (this w') = animations (this running) /\
    (currentDirection (this running) = Some "up" -> w' = running) /\
    (currentDirection (this running) <> Some "up" ->
     textures (this w') = Some frames /\
     animationSpeed (this w') = anim_speed anim /\
     playing (this w') = playing (this running) /\
     currentFrame (this w')
     = Z.min (currentFrame (this running)) (Z.of_nat (length frames) - 1)).
Proof.
  intros anim frames.
  assert (H1 : currentAnimation (this running) = Some "run") by (vm_compute; reflexivity).
  assert (H2 : "run" <> EmptyString) by discriminate.
  assert (H3 : animations (this running) !! "run" = Some anim) by (vm_compute; reflexivity).
  assert (H4 : Obj.get (anim_textures anim) "up" = Some frames) by (vm_compute; reflexivity).
  split; [exact H1|]. split; [exact H2|]. split; [exact H3|]. split; [exact H4|].
  exact (changeDirection_turns "up" running "run" anim frames H1 H2 H3 H4).
Defined.

(** X9.  A fallback is remembered, the direction asked for is not: when
    the character faces [d0] in animation [a], switches to an animation
    [b] that lacks [d0] (so that [b]'s first key [f] is taken) and then
    back to [a] without naming a direction, it faces [f], not [d0]
    (provided [a] has sequences for [f]). *)
Theorem fallback_direction_sticks w a b animA animB d0 f :
  a <> b ->
  animations (this w) !! a = Some animA ->
  animations (this w) !! b = Some animB ->
  currentAnimation (this w) = Some a ->
  currentDirection (this w) = Some d0 ->
  Obj.get (anim_textures animB) d0 = None ->
  head (Obj.keys (anim_textures animB)) = Some f ->
  is_Some (Obj.get (anim_textures animA) f) ->
  exists w1 w2,
    changeAnimation b None w = (Normal tt, w1) /\
    currentDirection (this w1) = Some f /\
    changeAnimation a None w1 = (Normal tt, w2) /\
    currentAnimation (this w2) = Some a /\
    currentDirection (this w2) = Some f /\
    f <> d0.
Proof.
  intros Hab Ha Hb Hn Hd Hlack Hf [framesA HfA].
  destruct (ObjFacts.head_keys_get _ _ Hf) as [framesB HfB].
  assert (Hres1 : resolve_direction (this w) animB None = Some f).
  { unfold resolve_direction. rewrite Hd. cbn. by rewrite Hlack. }
  set (w1 := mkWorld
               (mkCharacter (animations (this w)) (Some b) (Some f)
                  (speed (this w)) (visible (this w)) (Some framesB) (anim_speed animB)
                  (playing (this w))
                  (Z.min (currentFrame (this w)) (Z.of_nat (length framesB) - 1)))
               (console w)).
  assert (E1 : changeAnimation b None w = (Normal tt, w1)).
  { rewrite (ControllerFacts.changeAnimation_swap b None w animB framesB Hb);
      rewrite ?Hres1; [done | left; congruence | done]. }
  assert (Hres2 : resolve_direction (this w1) animA None = Some f).
  { unfold resolve_direction. cbn. by rewrite HfA. }
  set (w2 := mkWorld
               (mkCharacter (animations (this w1)) (Some a) (Some f)
                  (speed (this w1)) (visible (this w1)) (Some framesA) (anim_speed animA)
                  (playing (this w1))
                  (Z.min (currentFrame (this w1)) (Z.of_nat (length framesA) - 1)))
               (console w1)).
  assert (E2 : changeAnimation a None w1 = (Normal tt, w2)).
  { rewrite (ControllerFacts.changeAnimation_swap a None w1 animA framesA Ha);
      rewrite ?Hres2; [done | left; cbn; congruence | done]. }
  exists w1, w2. do 5 (split; [done|]). intros ->. congruence.
Qed.

Lemma fallback_direction_sticks_witness :
  let animA := sliced_entry (sheet 12 4) four_ways (QArith_base.Qmake 15 100) in
  let animB := sliced_entry (sheet 6 1) ["down"] (QArith_base.Qmake 15 100) in
  "run" <> "hurt" /\
  animations (this facing_left) !! "run" = Some animA /\
  animations (this facing_left) !! "hurt" = Some animB /\
  currentAnimation (this facing_left) = Some "run" /\
  currentDirection (this facing_left) = Some "left" /\
  Obj.get (anim_textures animB) "left" = None /\
  head (Obj.keys (anim_textures animB)) = Some "down" /\
  is_Some (Obj.get (anim_textures animA) "down") /\
  exists w1 w2,
    changeAnimation "hurt" None facing_left = (Normal tt, w1) /\
    currentDirection (this w1) = Some "down" /\
    changeAnimation "run" None w1 = (Normal tt, w2) /\
    currentAnimation (this w2) = Some "run" /\
    currentDirection (this w2) = Some "down" /\
    "down" <> "left".
Proof.
  intros animA animB.
  assert (H0 : "run" <> "hurt") by discriminate.
  assert (H1 : animations (this facing_left) !! "run" = Some animA)
    by (vm_compute; reflexivity).
  assert (H2 : animations (this facing_left) !! "hurt" = Some animB)
    by (vm_compute; reflexivity).
  assert (H3 : currentAnimation (this facing_left) = Some "run") by (vm_compute; reflexivity).
  assert (H4 : currentDirection (this facing_left) = Some "left")
    by (vm_compute; reflexivity).
  assert (H5 : Obj.get (anim_textures animB) "left" = None) by (vm_compute; reflexivity).
  assert (H6 : head (Obj.keys (anim_textures animB)) = Some "down")
    by (vm_compute; reflexivity).
  assert (H7 : is_Some (Obj.get (anim_textures animA) "down"))
    by (vm_compute; eexists; reflexivity).
  split; [exact H0|]. split; [exact H1|]. split; [exact H2|]. split; [exact H3|].
  split; [exact H4|]. split; [exact H5|]. split; [exact H6|]. split; [exact H7|].
  exact (fallback_direction_sticks facing_left "run" "hurt" animA animB "left" "down"
           H0 H1 H2 H3 H4 H5 H6 H7).
Defined.

(** ** Registration *)

Module RegistrationFacts.

(** [addAnimation], step by step. *)
Lemma addAnimation_unfold name textureData frameCount speed w :
  addAnimation name textureData frameCount speed w
  = let entry := mkEntry textureData frameCount
                   (default (QArith_base.Qmake 15 100) speed) (Obj.keys textureData) in
    let c1 := with_animations (<[name := entry]> (animations (this w))) (this w) in
    if falsy (currentAnimation (this w))
    then changeAnimation name (currentDirection (this w))
           (mkWorld (with_visible true c1) (console w))
    else (Normal tt, mkWorld c1 (console w)).
Proof.
  unfold addAnimation, mbind, M_bind, get_this, update_this. cbn [this console].
  change (currentAnimation (with_animations _ (this w))) with (currentAnimation (this w)).
  by destruct (falsy (currentAnimation (this w))).
Qed.

(** Asked for a direction it has settled on before, the fallback rule
    settles on it again. *)
Lemma resolve_direction_fixed self anim d :
  currentDirection self = d ->
  is_Some (Obj.get (anim_textures anim) (to_key d)) ->
  resolve_direction self anim d = d.
Proof.
  intros Hcur [frames Hf]. unfold resolve_direction.
  destruct d as [x|]; [by rewrite Hf|]. rewrite Hcur. by rewrite Hf.
Qed.

(** A settled direction under which the entry has a sequence is a
    defined one, if the current direction is. *)
Lemma resolve_direction_defined self anim direction :
  is_Some (currentDirection self) ->
  is_Some (Obj.get (anim_textures anim) (to_key (resolve_direction self anim direction))) ->
  is_Some (resolve_direction self anim direction).
Proof.
  intros Hcur. unfold resolve_direction.
  set (requested := match direction with Some d => Some d | None => _ end).
  assert (Hreq : is_Some requested) by (subst requested; by destruct direction).
  destruct (Obj.get _ (to_key requested)); [done|].
  destruct (head (Obj.keys (anim_textures anim))) eqn:Hk; [done|].
  apply ObjFacts.head_keys_None in Hk. rewrite Hk. by intros [? ?].
Qed.

End RegistrationFacts.

(** X10.  The first registration on a freshly constructed character
    activates the animation, provided its mapping has a direction: the
    call returns, the sprite is visible and playing, the registry holds
    just this entry, the character faces "down" if the mapping has that
    key and the mapping's first key otherwise, and the host shows that
    direction's sequence with the entry's speed ([0.15] by default), at
    frame 0 (at [-1] if the sequence is empty). *)
Theorem first_registration_activates name textureData frameCount givenSpeed console0 :
  textureData <> [] ->
  let start :=
    match Obj.get textureData "down" with
    | Some _ => Some "down"
    | None => head (Obj.keys textureData)
    end in
  exists w' frames,
    addAnimation name textureData frameCount givenSpeed (mkWorld new_AnimatedCharacter console0)
    = (Normal tt, w') /\
    Obj.get textureData (to_key start) = Some frames /\
    animations (this w')
    = {[ name := mkEntry textureData frameCount
                   (default (QArith_base.Qmake 15 100) givenSpeed) (Obj.keys textureData) ]} /\
    visible (this w') = true /\
    currentAnimation (this w') = Some name /\
    currentDirection (this w') = start /\
    textures (this w') = Some frames /\
    animationSpeed (this w') = default (QArith_base.Qmake 15 100) givenSpeed /\
    playing (this w') = true /\
    currentFrame (this w') = Z.min 0 (Z.of_nat (length frames) - 1) /\
    console w' = console0.
Proof.
  intros Hne start. rewrite RegistrationFacts.addAnimation_unfold.
  cbn [this console new_AnimatedCharacter with_visible sprite_play currentAnimation
       currentDirection falsy].
  set (entry := mkEntry _ _ _ _). set (w2 := mkWorld _ _).
  assert (Hreg : animations (this w2) !! name = Some entry) by apply lookup_insert_eq.
  assert (Hres : resolve_direction (this w2) entry (Some "down") = start) by done.
  destruct (ControllerFacts.resolve_direction_key (this w2) entry (Some "down") Hne)
    as [frames Hframes].
  rewrite Hres in Hframes.
  exists (mkWorld
            (mkCharacter (animations (this w2)) (Some name) start
               (speed (this w2)) (visible (this w2)) (Some frames) (anim_speed entry)
               (playing (this w2))
               (Z.min (currentFrame (this w2)) (Z.of_nat (length frames) - 1)))
            (console w2)), frames.
  split.
  - rewrite (ControllerFacts.changeAnimation_swap name (Some "down") w2 entry frames Hreg);
      rewrite ?Hres; [done | by left | done].
  - split; [done|]. split; [|done]. cbn [this animations]. apply insert_empty.
Qed.

Lemma first_registration_activates_witness :
  let textureData := TextureFactory.textureData (slice (sheet 6 1) ["left"]) in
  textureData <> [] /\
  let start :=
    match Obj.get textureData "down" with
    | Some _ => Some "down"
    | None => head (Obj.keys textureData)
    end in
  start = Some "left" /\
  exists w' frames,
    addAnimation "hurt" textureData 6 None (mkWorld new_AnimatedCharacter [])
    = (Normal tt, w') /\
    Obj.get textureData (to_key start) = Some frames /\
    animations (this w')
    = {[ "hurt" := mkEntry textureData 6
                     (default (QArith_base.Qmake 15 100) None) (Obj.keys textureData) ]} /\
    visible (this w') = true /\
    currentAnimation (this w') = Some "hurt" /\
    currentDirection (this w') = start /\
    textures (this w') = Some frames /\
    animationSpeed (this w') = default (QArith_base.Qmake 15 100) None /\
    playing (this w') = true /\
    currentFrame (this w') = Z.min 0 (Z.of_nat (length frames) - 1) /\
    console w' = [].
Proof.
  intros textureData.
  assert (H1 : textureData <> []) by (vm_compute; discriminate).
  split; [exact H1|]. intros start. split; [vm_compute; reflexivity|].
  exact (first_registration_activates "hurt" textureData 6 None [] H1).
Defined.

(** X11.  Registering the same animation twice in a row is the same as
    registering it once: the second call ends as the first one did
    (returning, or throwing for a mapping without keys that is to be
    activated) and leaves the world exactly as the first call left it. *)
Theorem addAnimation_twice name textureData frameCount givenSpeed w :
  addAnimation name textureData frameCount givenSpeed
    (addAnimation name textureData frameCount givenSpeed w).2
  = addAnimation name textureData frameCount givenSpeed w.
Proof.
  rewrite (RegistrationFacts.addAnimation_unfold _ _ _ _ w). cbn zeta.
  set (entry := mkEntry _ _ _ _).
  set (m := <[name := entry]> (animations (this w))).
  assert (Hmm : <[name := entry]> m = m) by apply insert_insert_eq.
  destruct (falsy (currentAnimation (this w))) eqn:Hfalsy.
  - set (w2 := mkWorld _ _).
    assert (Hreg : animations (this w2) !! name = Some entry) by apply lookup_insert_eq.
    destruct (ControllerFacts.changeAnimation_cases name (currentDirection (this w)) w2)
      as [[H _]|(anim & H & Hcases)]; [congruence|].
    assert (anim = entry) as -> by congruence. cbn zeta in Hcases.
    destruct Hcases as [(Hn & Hd & E)|[(frames & Hf & E)|[Hnone E]]]; rewrite E.
    + rewrite RegistrationFacts.addAnimation_unfold. cbn zeta. fold entry.
      cbn [snd this console animations with_visible with_animations currentAnimation
           currentDirection visible w2]. fold m. rewrite Hmm, Hfalsy. exact E.
    + rewrite RegistrationFacts.addAnimation_unfold. cbn zeta. fold entry.
      cbn [snd this console animations with_visible with_animations currentAnimation
           currentDirection visible w2 speed textures animationSpeed playing currentFrame].
      fold m. rewrite Hmm.
      set (d := resolve_direction (this w2) entry (currentDirection (this w))) in *.
      destruct (falsy (Some name)); [|done].
      apply (ControllerFacts.changeAnimation_same _ _ _ entry); [done | done |].
      cbn [this currentDirection]. symmetry.
      apply (RegistrationFacts.resolve_direction_fixed _ entry d); [done | by rewrite Hf].
    + rewrite RegistrationFacts.addAnimation_unfold. cbn zeta. fold entry.
      cbn [snd this console animations with_visible with_animations with_textures
           with_animationSpeed currentAnimation currentDirection visible w2 speed textures
           animationSpeed playing currentFrame].
      fold m. rewrite Hmm, Hfalsy.
      set (w3 := mkWorld _ _).
      assert (Hres : resolve_direction (this w3) entry (currentDirection (this w))
                     = resolve_direction (this w2) entry (currentDirection (this w)))
        by done.
      destruct (decide (currentAnimation (this w2) = Some name)) as [Hn|Hn];
        [destruct (decide (currentDirection (this w2)
                           = resolve_direction (this w2) entry (currentDirection (this w))))
          as [Hd|Hd]|].
      * rewrite (ControllerFacts.changeAnimation_same _ _ _ entry Hreg Hn Hd) in E.
        discriminate.
      * rewrite (ControllerFacts.changeAnimation_throw name _ w3 entry Hreg);
          rewrite ?Hres; [done | by right | done].
      * rewrite (ControllerFacts.changeAnimation_throw name _ w3 entry Hreg);
          rewrite ?Hres; [done | by left | done].
  - rewrite RegistrationFacts.addAnimation_unfold. cbn zeta. fold entry.
    cbn [snd this console animations with_animations currentAnimation]. fold m.
    by rewrite Hmm, Hfalsy.
Qed.

(** X12.  [getAvailableDirections] never changes anything.  Right after
    [addAnimation(name, textureData, ...)], however that call ended, it
    returns the keys of [textureData] in their order, and every direction
    of that list whose sequence is not empty can be turned to:
    [changeAnimation(name, direction)] returns with exactly that name and
    direction current.  For a name that is not registered it returns the
    empty list, unless the name is that of a member of
    [Object.prototype]: then it returns [undefined]. *)
Theorem getAvailableDirections_lists_keys name textureData frameCount givenSpeed w :
  let w1 := (addAnimation name textureData frameCount givenSpeed w).2 in
  getAvailableDirections name w1 = (Normal (Some (Obj.keys textureData)), w1) /\
  (forall direction frames,
      Obj.get textureData direction = Some frames -> frames <> [] ->
      direction ∈ Obj.keys textureData /\
      exists w2, changeAnimation name (Some direction) w1 = (Normal tt, w2) /\
                 currentAnimation (this w2) = Some name /\
                 currentDirection (this w2) = Some direction) /\
  (forall other, animations (this w) !! other = None ->
                 getAvailableDirections other w
                 = (Normal (if bool_decide (other ∈ Object_prototype)
                            then None else Some []), w)).
Proof.
  intros w1.
  pose proof (ControllerFacts.addAnimation_animations name textureData frameCount
                givenSpeed w) as Hreg.
  fold w1 in Hreg. set (entry := mkEntry _ _ _ _) in Hreg.
  assert (Hlook : animations (this w1) !! name = Some entry)
    by (rewrite Hreg; apply lookup_insert_eq).
  split; [|split].
  - unfold getAvailableDirections, mbind, M_bind, get_this. by rewrite Hlook.
  - intros direction frames Hframes _.
    split; [apply ObjFacts.get_is_Some; by rewrite Hframes|].
    assert (Hne : anim_textures entry <> []).
    { intros Hnil. cbn in Hnil. by rewrite Hnil in Hframes. }
    destruct (ControllerFacts.changeAnimation_returns name (Some direction) w1 entry
                Hlook Hne) as (w2 & Hrun & _ & Hn & Hd & _).
    exists w2. split; [done|]. split; [done|]. rewrite Hd.
    unfold resolve_direction. cbn. by rewrite Hframes.
  - intros other Hnone. unfold getAvailableDirections, mbind, M_bind, get_this.
    rewrite Hnone. unfold inherited. by destruct (bool_decide _).
Qed.

Lemma getAvailableDirections_lists_keys_witness :
  let textureData := TextureFactory.textureData (slice (sheet 6 1) ["down"]) in
  let frames := TextureFactory.row_frames (sheet 6 1) 64 64 6 0 in
  let w1 := (addAnimation "hurt" textureData 6 None fresh).2 in
  Obj.get textureData "down" = Some frames /\ frames <> [] /\
  "down" ∈ Obj.keys textureData /\
  exists w2, changeAnimation "hurt" (Some "down") w1 = (Normal tt, w2) /\
             currentAnimation (this w2) = Some "hurt" /\
             currentDirection (this w2) = Some "down".
Proof.
  intros textureData frames w1.
  assert (H1 : Obj.get textureData "down" = Some frames) by (vm_compute; reflexivity).
  assert (H2 : frames <> []) by (vm_compute; discriminate).
  split; [exact H1|]. split; [exact H2|].
  exact (proj1 (proj2 (getAvailableDirections_lists_keys "hurt" textureData 6 None fresh))
           "down" frames H1 H2).
Defined.

(** ** Any sequence of calls *)

Module CallFacts.

Lemma changeAnimation_well_kept animationName direction w :
  well_kept (this w) -> well_kept (this (changeAnimation animationName direction w).2).
Proof.
  intros (Hd & Hn & Hv).
  destruct (ControllerFacts.changeAnimation_cases animationName direction w)
    as [[_ [[_ E]|[_ [e E]]]]|(anim & H & [(_ & _ & E)|[(frames & Hf & E)|[_ E]]])];
    rewrite E; clear E; try done.
  split; [|split; [|done]]; cbn [snd this currentDirection currentAnimation animations].
  - apply RegistrationFacts.resolve_direction_defined; [done | by rewrite Hf].
  - intros name [= <-]. by rewrite H.
Qed.

Lemma perform_well_kept call w :
  well_kept (this w) -> well_kept (this (perform call w).2).
Proof.
  intros Hk. destruct call as [name textureData frameCount givenSpeed| | | |]; cbn [perform].
  - rewrite RegistrationFacts.addAnimation_unfold. cbn zeta.
    set (entry := mkEntry _ _ _ _).
    destruct Hk as (Hd & Hn & Hv).
    assert (Hkeep : forall n, is_Some (animations (this w) !! n) ->
                              is_Some (<[name := entry]> (animations (this w)) !! n)).
    { intros n Hin. destruct (decide (name = n)) as [->|Hne].
      - rewrite lookup_insert_eq. eauto.
      - by rewrite lookup_insert_ne. }
    destruct (falsy (currentAnimation (this w))) eqn:Hfalsy.
    + apply changeAnimation_well_kept. split; [done|]. split; [by auto|].
      cbn. split; [intros _; apply insert_non_empty | done].
    + cbn. split; [done|]. split; [by auto|].
      split; [intros _; apply insert_non_empty|]. intros _. apply Hv.
      destruct (currentAnimation (this w)) as [n|] eqn:Hcur; [|done].
      destruct (Hn n eq_refl) as [e He]. intros Hempty. rewrite Hempty in He.
      by rewrite lookup_empty in He.
  - by apply changeAnimation_well_kept.
  - unfold changeDirection, mbind, M_bind, get_this.
    destruct (currentAnimation (this w)) as [n|]; [|done].
    destruct (falsy (Some n)); [done|]. by apply changeAnimation_well_kept.
  - done.
  - done.
Qed.

End CallFacts.

(** X13.  Whatever calls are made on a freshly constructed character, in
    whatever order and whether they throw or not: the current direction
    is never [undefined], the current animation, once there is one, is a
    registered name, and the sprite is visible exactly if at least one
    animation has been registered. *)
Theorem calls_keep_character_well (calls : list Call) (console0 : list ConsoleLine) :
  let c := this (perform_all calls (mkWorld new_AnimatedCharacter console0)) in
  is_Some (currentDirection c) /\
  (forall name, currentAnimation c = Some name -> is_Some (animations c !! name)) /\
  (visible c = true <-> animations c <> ∅).
Proof.
  assert (Hgen : forall w, well_kept (this w) ->
                           well_kept (this (perform_all calls w))).
  { induction calls as [|call calls IH]; intros w Hk; [done|].
    cbn [perform_all]. apply IH. by apply CallFacts.perform_well_kept. }
  apply Hgen. split; [by eexists|]. split; [done|]. cbn. split; [done|].
  intros H. by destruct H.
Qed.

(** ** The factory: what ends up in the character *)

Module FactoryMore.

Lemma changeAnimation_visible animationName direction w :
  visible (this (changeAnimation animationName direction w).2) = visible (this w).
Proof.
  destruct (ControllerFacts.changeAnimation_cases animationName direction w)
    as [[_ [[_ E]|[_ [e E]]]]|(anim & H & [(_ & _ & E)|[(frames & Hf & E)|[_ E]]])];
    by rewrite E.
Qed.

Section Loading.
Variable Assets_load : string -> Error + BaseTexture.
Variables (frameW frameH : Z) (directions : list string) (basePath : string).

Let path (animName : string) : string :=
  String.append basePath (String.append animName ".png").
Let run := load_all Assets_load frameW frameH directions basePath.

(** The entry the factory registers for a loaded sheet. *)
Let entry_of (texture : BaseTexture) (config : AnimationConfig) : AnimationEntry :=
  let result := TextureFactory.createFrameTextures texture frameW frameH directions in
  mkEntry (TextureFactory.textureData result) (TextureFactory.frameCount result)
          (default (QArith_base.Qmake 15 100) (cfg_speed config))
          (Obj.keys (TextureFactory.textureData result)).

(** When no image loads, nothing but the lists and the console changes. *)
Lemma load_all_none_loads entries : forall loadResults w,
  (forall animName, animName ∈ entries.*1 -> exists e, Assets_load (path animName) = inl e) ->
  exists loadResults' w',
    run entries loadResults w = (Normal loadResults', w') /\
    this w' = this w /\
    total loadResults' = total loadResults /\
    successful loadResults' = successful loadResults /\
    (failed loadResults').*1 = (failed loadResults).*1 ++ entries.*1 /\
    (forall animName msg,
        (animName, msg) ∈ failed loadResults' ->
        (animName, msg) ∈ failed loadResults \/
        exists e, Assets_load (path animName) = inl e /\ msg = message e).
Proof.
  induction entries as [|[animName config] entries IH]; intros loadResults w Hfail.
  - exists loadResults, w. split; [done|]. do 3 (split; [done|]).
    split; [by rewrite app_nil_r | by left].
  - destruct (Hfail animName) as [e He]; [by left|].
    unfold run. cbn [load_all]. unfold mbind, M_bind.
    rewrite (FactoryFacts.load_animation_failure Assets_load frameW frameH directions
               basePath loadResults animName config w e He).
    edestruct IH as (lr' & w' & -> & Hthis & Htot & Hsucc & Hnames & Hmsgs).
    { intros n Hn. apply Hfail. by right. }
    exists lr', w'. split; [done|]. cbn in *.
    do 3 (split; [done|]). split.
    + rewrite Hnames, fmap_app. cbn. by rewrite <- app_assoc.
    + intros n msg Hin. destruct (Hmsgs n msg Hin) as [Hold|?]; [|by right].
      apply elem_of_app in Hold as [?|Hnew]; [by left|].
      apply list_elem_of_singleton in Hnew as [= -> ->]. right. eauto.
Qed.

(** Every entry in the registry after the loop was there before or is
    the slicing of the image loaded for its own name, with the speed of
    one of that name's configurations. *)
Lemma load_all_entries entries : forall loadResults w,
  exists loadResults' w',
    run entries loadResults w = (Normal loadResults', w') /\
    forall animName entry,
      animations (this w') !! animName = Some entry ->
      animations (this w) !! animName = Some entry \/
      exists texture config,
        (animName, config) ∈ entries /\
        Assets_load (path animName) = inr texture /\
        entry = entry_of texture config.
Proof.
  induction entries as [|[animName config] entries IH]; intros loadResults w.
  - exists loadResults, w. split; [done|]. by left.
  - unfold run in *. cbn [load_all]. unfold mbind, M_bind.
    destruct (Assets_load (path animName)) as [e|texture] eqn:Hload.
    + rewrite (FactoryFacts.load_animation_failure Assets_load frameW frameH directions
                 basePath loadResults animName config w e Hload).
      edestruct IH as (lr' & w' & -> & Hreg).
      exists lr', w'. split; [done|]. intros n entry Hn.
      destruct (Hreg n entry Hn) as [?|(t & c & Hin & ? & ?)]; [by left|].
      right. exists t, c. split; [by right | done].
    + destruct (FactoryFacts.load_animation_loaded Assets_load frameW frameH directions
                  basePath loadResults animName config w texture Hload)
        as (lr1 & w1 & -> & _ & Hreg1 & _).
      edestruct (IH lr1 w1) as (lr' & w' & -> & Hreg).
      exists lr', w'. split; [done|]. intros n entry Hn.
      destruct (Hreg n entry Hn) as [Hold|(t & c & Hin & ? & ?)].
      * rewrite Hreg1 in Hold. destruct (decide (animName = n)) as [<-|Hne].
        -- rewrite lookup_insert_eq in Hold. injection Hold as <-.
           right. exists texture, config. split; [by left | done].
        -- rewrite lookup_insert_ne in Hold by done. by left.
      * right. exists t, c. split; [by right | done].
Qed.

(** Once a non-empty name is current, the loop only adds registry
    entries. *)
Lemma load_all_keeps_current entries : forall loadResults w current,
  currentAnimation (this w) = Some current -> current <> EmptyString ->
  exists loadResults' w',
    run entries loadResults w = (Normal loadResults', w') /\
    this w' = with_animations (animations (this w')) (this w).
Proof.
  induction entries as [|[animName config] entries IH]; intros loadResults w current Hcur Hne.
  - exists loadResults, w. split; [done|]. by destruct (this w).
  - unfold run in *. cbn [load_all]. unfold mbind, M_bind.
    destruct (Assets_load (path animName)) as [e|texture] eqn:Hload.
    + rewrite (FactoryFacts.load_animation_failure Assets_load frameW frameH directions
                 basePath loadResults animName config w e Hload).
      edestruct (IH (mkLoadResults (successful loadResults)
                       (failed loadResults ++ [(animName, message e)])
                       (total loadResults))
                    (mkWorld (this w) (console w ++ [warn_load_error animName e])) current)
        as (lr' & w' & -> & Hthis); [done | done |].
      exists lr', w'. split; [done|]. exact Hthis.
    + unfold load_animation, try_catch, mbind, M_bind, await_load.
      fold (path animName). rewrite Hload.
      rewrite (addAnimation_while_active _ _ _ _ w current Hcur Hne).
      unfold console_write, mret, M_ret. cbn [this console].
      match goal with |- context [load_all _ _ _ _ _ _ ?lr1 ?w1] =>
        edestruct (IH lr1 w1 current) as (lr' & w' & E & Hthis); [done | done |] end.
      rewrite E.
      exists lr', w'. split; [done|]. rewrite Hthis. cbn. done.
Qed.

End Loading.

End FactoryMore.

(** X14.  When none of the configured images loads, the slicer and the
    controller are never reached: the factory returns the character as
    the constructor made it (invisible, no animation), the successful
    list is empty, and the failed list names every configured animation
    in configuration order, each with the message of its load error.  An
    empty configuration is the special case with both lists empty. *)
Theorem factory_nothing_loads
    (Assets_load : string -> Error + BaseTexture) (animationConfigs : Obj.t AnimationConfig)
    (frameW frameH : Z) (directions : list string) (basePath : option string)
    (console0 : list ConsoleLine) :
  let path animName :=
    String.append (default "pngs/" basePath) (String.append animName ".png") in
  (forall animName, animName ∈ Obj.keys animationConfigs ->
                    exists e, Assets_load (path animName) = inl e) ->
  exists loadResults console',
    CreateCharacterWithManyAnimations Assets_load animationConfigs frameW frameH
      directions basePath console0
    = (Normal (new_AnimatedCharacter, loadResults), console') /\
    successful loadResults = [] /\
    (failed loadResults).*1 = Obj.keys animationConfigs /\
    total loadResults = length animationConfigs /\
    (forall animName msg,
        (animName, msg) ∈ failed loadResults ->
        exists e, Assets_load (path animName) = inl e /\ msg = message e).
Proof.
  intros path Hfail. unfold CreateCharacterWithManyAnimations.
  unfold mbind at 1 2, M_bind at 1 2, console_write at 1. cbn [this console].
  set (lr0 := mkLoadResults [] [] _). set (w0 := mkWorld _ _).
  destruct (FactoryMore.load_all_none_loads Assets_load frameW frameH directions
              (default "pngs/" basePath) animationConfigs lr0 w0 Hfail)
    as (lr & w & -> & Hthis & Htot & Hsucc & Hnames & Hmsgs).
  unfold mbind, M_bind, console_write, get_this, mret, M_ret. cbn [this console].
  exists lr.
  destruct (bool_decide _); (eexists; split; [by rewrite Hthis|]);
    (split; [done|]); (split; [done|]);
    (split; [rewrite Htot; subst lr0; cbn; unfold Obj.keys; by rewrite length_fmap|]);
    intros n msg Hin; (destruct (Hmsgs n msg Hin) as [Hold|?]; [|done]);
    by apply elem_of_nil in Hold.
Qed.

Lemma factory_nothing_loads_witness :
  (forall animName, animName ∈ Obj.keys [("b", mkConfig None); ("c", mkConfig None)] ->
                    exists e, only_a (String.append (default "pngs/" None)
                                        (String.append animName ".png")) = inl e) /\
  exists loadResults console',
    CreateCharacterWithManyAnimations only_a [("b", mkConfig None); ("c", mkConfig None)]
      64 64 four_ways None []
    = (Normal (new_AnimatedCharacter, loadResults), console') /\
    successful loadResults = [] /\
    (failed loadResults).*1 = Obj.keys [("b", mkConfig None); ("c", mkConfig None)] /\
    total loadResults = length [("b", mkConfig None); ("c", mkConfig None)] /\
    (forall animName msg,
        (animName, msg) ∈ failed loadResults ->
        exists e, only_a (String.append (default "pngs/" None)
                            (String.append animName ".png")) = inl e /\ msg = message e).
Proof.
  assert (H : forall animName,
             animName ∈ Obj.keys [("b", mkConfig None); ("c", mkConfig None)] ->
             exists e, only_a (String.append (default "pngs/" None)
                                 (String.append animName ".png")) = inl e).
  { intros animName Hin. cbn in Hin.
    apply elem_of_cons in Hin as [->|Hin]; [eexists; vm_compute; reflexivity|].
    apply list_elem_of_singleton in Hin as ->. eexists; vm_compute; reflexivity. }
  split; [exact H|].
  exact (factory_nothing_loads only_a [("b", mkConfig None); ("c", mkConfig None)]
           64 64 four_ways None [] H).
Defined.

(** X15.  For positive frame sizes, every animation registered in the
    character the factory returns comes from its own file: its entry is
    the slicing, with the factory's frame sizes and labels, of the image
    loaded from [basePath + name + ".png"], with the speed of a
    configuration of that name ([0.15] if it gives none).  So its
    [directions] are the keys of its textures and each of its sequences
    has [frameCount] frames. *)
Theorem factory_entries_are_slicings
    (Assets_load : string -> Error + BaseTexture) (animationConfigs : Obj.t AnimationConfig)
    (frameW frameH : Z) (directions : list string) (basePath : option string)
    (console0 : list ConsoleLine) :
  0 < frameW -> 0 < frameH ->
  let path animName :=
    String.append (default "pngs/" basePath) (String.append animName ".png") in
  exists character loadResults console',
    CreateCharacterWithManyAnimations Assets_load animationConfigs frameW frameH
      directions basePath console0
    = (Normal (character, loadResults), console') /\
    forall animName entry,
      animations character !! animName = Some entry ->
      (exists texture config,
          (animName, config) ∈ animationConfigs /\
          Assets_load (path animName) = inr texture /\
          let result :=
            TextureFactory.createFrameTextures texture frameW frameH directions in
          entry = mkEntry (TextureFactory.textureData result)
                          (TextureFactory.frameCount result)
                          (default (QArith_base.Qmake 15 100) (cfg_speed config))
                          (Obj.keys (TextureFactory.textureData result))) /\
      anim_directions entry = Obj.keys (anim_textures entry) /\
      (forall d frames, Obj.get (anim_textures entry) d = Some frames ->
                        length frames = Z.to_nat (anim_frameCount entry)).
Proof.
  intros Hw Hh path. unfold CreateCharacterWithManyAnimations.
  unfold mbind at 1 2, M_bind at 1 2, console_write at 1. cbn [this console].
  set (lr0 := mkLoadResults [] [] _). set (w0 := mkWorld _ _).
  destruct (FactoryMore.load_all_entries Assets_load frameW frameH directions
              (default "pngs/" basePath) animationConfigs lr0 w0)
    as (lr & w & -> & Hreg).
  unfold mbind, M_bind, console_write, get_this, mret, M_ret. cbn [this console].
  exists (this w), lr.
  destruct (bool_decide _); (eexists; split; [reflexivity|]);
    intros animName entry Hentry;
    (destruct (Hreg animName entry Hentry) as [Hold|(texture & config & Hin & Hload & ->)];
     [subst w0; cbn in Hold; by rewrite lookup_empty in Hold|]);
    (split; [by exists texture, config|]); (split; [done|]);
    cbn [anim_textures anim_frameCount]; intros d frames Hget;
    rewrite SlicerFacts.createFrameTextures_rows in Hget;
    (apply SlicerFacts.rows_values in Hget as [Hget|(row & _ & _ & ->)]; [done|]);
    apply SlicerFacts.frames_length.
Qed.

Lemma factory_entries_are_slicings_witness :
  0 < 64 /\ 0 < 64 /\
  exists character loadResults console',
    CreateCharacterWithManyAnimations only_a [("a", mkConfig None); ("b", mkConfig None)]
      64 64 four_ways None []
    = (Normal (character, loadResults), console') /\
    forall animName entry,
      animations character !! animName = Some entry ->
      (exists texture config,
          (animName, config) ∈ [("a", mkConfig None); ("b", mkConfig None)] /\
          only_a (String.append (default "pngs/" None) (String.append animName ".png"))
          = inr texture /\
          let result := TextureFactory.createFrameTextures texture 64 64 four_ways in
          entry = mkEntry (TextureFactory.textureData result)
                          (TextureFactory.frameCount result)
                          (default (QArith_base.Qmake 15 100) (cfg_speed config))
                          (Obj.keys (TextureFactory.textureData result))) /\
      anim_directions entry = Obj.keys (anim_textures entry) /\
      (forall d frames, Obj.get (anim_textures entry) d = Some frames ->
                        length frames = Z.to_nat (anim_frameCount entry)).
Proof.
  assert (H : 0 < 64) by lia.
  split; [exact H|]. split; [exact H|].
  exact (factory_entries_are_slicings only_a [("a", mkConfig None); ("b", mkConfig None)]
           64 64 four_ways None [] H H).
Defined.

(** X16.  For positive frame sizes, if the first configured animation
    has a non-empty name and its sheet loads and holds at least one whole
    frame (it is at least one frame wide and one frame high), the
    character the factory returns is visible and playing that
    animation, facing "down" if the sheet has that label and the sheet's
    first label otherwise, whatever the remaining entries are: later
    animations are registered but never take over. *)
Theorem factory_starts_on_first
    (Assets_load : string -> Error + BaseTexture) (a : string) (configA : AnimationConfig)
    (rest : Obj.t AnimationConfig) (texture : BaseTexture)
    (frameW frameH : Z) (directions : list string) (basePath : option string)
    (console0 : list ConsoleLine) :
  0 < frameW -> 0 < frameH ->
  a <> EmptyString ->
  Assets_load (String.append (default "pngs/" basePath) (String.append a ".png"))
  = inr texture ->
  frameW <= width texture -> frameH <= height texture ->
  let textureData :=
    TextureFactory.textureData
      (TextureFactory.createFrameTextures texture frameW frameH directions) in
  let start :=
    match Obj.get textureData "down" with
    | Some _ => Some "down"
    | None => head (Obj.keys textureData)
    end in
  exists character loadResults console',
    CreateCharacterWithManyAnimations Assets_load ((a, configA) :: rest) frameW frameH
      directions basePath console0
    = (Normal (character, loadResults), console') /\
    currentAnimation character = Some a /\
    currentDirection character = start /\
    visible character = true /\
    playing character = true /\
    is_Some (textures character) /\
    textures character = Obj.get textureData (to_key start).
Proof.
  intros Hw Hh Hname Hload Hwide Htall textureData start.
  unfold CreateCharacterWithManyAnimations.
  unfold mbind at 1 2, M_bind at 1 2, console_write at 1. cbn [this console load_all].
  set (lr0 := mkLoadResults [] [] _). set (w0 := mkWorld _ _).
  unfold mbind at 1, M_bind at 1.
  unfold load_animation at 1, try_catch, mbind at 1, M_bind at 1, await_load.
  rewrite Hload. unfold mbind at 1, M_bind at 1.
  rewrite RegistrationFacts.addAnimation_unfold.
  cbn [this console new_AnimatedCharacter with_visible sprite_play currentAnimation
       currentDirection falsy w0].
  fold textureData.
  set (entry := mkEntry _ _ _ _). set (w2 := mkWorld _ _).
  assert (Hreg : animations (this w2) !! a = Some entry) by apply lookup_insert_eq.
  assert (Hne : anim_textures entry <> [])
    by (by apply SlicerFacts.textureData_nonempty).
  assert (Hres : resolve_direction (this w2) entry (Some "down") = start) by done.
  destruct (ControllerFacts.resolve_direction_key (this w2) entry (Some "down") Hne)
    as [frames Hframes].
  rewrite Hres in Hframes.
  rewrite (ControllerFacts.changeAnimation_swap a (Some "down") w2 entry frames Hreg);
    rewrite ?Hres; [|by left|done].
  cbv beta iota delta [mbind M_bind console_write mret M_ret get_this].
  cbn [this console].
  match goal with |- context [load_all _ _ _ _ _ rest ?lr1 ?w3] =>
    destruct (FactoryMore.load_all_keeps_current Assets_load frameW frameH directions
                (default "pngs/" basePath) rest lr1 w3 a eq_refl Hname)
      as (lr & w & -> & Hthis) end.
  cbn [this console].
  exists (this w), lr.
  assert (Hframes' : Obj.get textureData (to_key start) = Some frames) by exact Hframes.
  destruct (bool_decide _); (eexists; split; [reflexivity|]);
    rewrite Hthis;
    cbn [with_animations this currentAnimation currentDirection visible playing textures];
    rewrite Hframes'; subst w2;
    cbn [with_visible this visible playing]; eauto 10.
Qed.

Lemma factory_starts_on_first_witness :
  0 < 64 /\ 0 < 64 /\ "a" <> EmptyString /\
  only_a (String.append (default "pngs/" None) (String.append "a" ".png"))
  = inr (sheet 2 4) /\
  64 <= width (sheet 2 4) /\ 64 <= height (sheet 2 4) /\
  let textureData :=
    TextureFactory.textureData
      (TextureFactory.createFrameTextures (sheet 2 4) 64 64 four_ways) in
  let start :=
    match Obj.get textureData "down" with
    | Some _ => Some "down"
    | None => head (Obj.keys textureData)
    end in
  exists character loadResults console',
    CreateCharacterWithManyAnimations only_a
      [("a", mkConfig None); ("b", mkConfig None)] 64 64 four_ways None []
    = (Normal (character, loadResults), console') /\
    currentAnimation character = Some "a" /\
    currentDirection character = start /\
    visible character = true /\
    playing character = true /\
    is_Some (textures character) /\
    textures character = Obj.get textureData (to_key start).
Proof.
  assert (H1 : 0 < 64) by lia.
  assert (H2 : "a" <> EmptyString) by discriminate.
  assert (H3 : only_a (String.append (default "pngs/" None) (String.append "a" ".png"))
               = inr (sheet 2 4)) by (vm_compute; reflexivity).
  assert (H4 : 64 <= height (sheet 2 4)) by (vm_compute; discriminate).
  assert (H5 : 64 <= width (sheet 2 4)) by (vm_compute; discriminate).
  split; [exact H1|]. split; [exact H1|]. split; [exact H2|]. split; [exact H3|].
  split; [exact H5|]. split; [exact H4|].
  exact (factory_starts_on_first only_a "a" (mkConfig None) [("b", mkConfig None)]
           (sheet 2 4) 64 64 four_ways None [] H1 H1 H2 H3 H5 H4).
Defined.

(** ** What calls never do *)

Module NeverFacts.

(** What one call cannot undo. *)
Lemma changeAnimation_never animationName direction w :
  let w' := (changeAnimation animationName direction w).2 in
  speed (this w') = speed (this w) /\
  animations (this w') = animations (this w) /\
  visible (this w') = visible (this w) /\
  (playing (this w) = false -> playing (this w') = false).
Proof.
  intros w'. subst w'.
  destruct (ControllerFacts.changeAnimation_cases animationName direction w)
    as [[_ [[_ E]|[_ [e E]]]]|(anim & H & [(_ & _ & E)|[(frames & Hf & E)|[_ E]]])];
    by rewrite E.
Qed.

Lemma perform_never call w :
  let w' := (perform call w).2 in
  speed (this w') = speed (this w) /\
  (forall name, is_Some (animations (this w) !! name) ->
                is_Some (animations (this w') !! name)) /\
  (visible (this w) = true -> visible (this w') = true) /\
  (playing (this w) = false -> call <> call_play -> playing (this w') = false).
Proof.
  intros w'. subst w'.
  destruct call as [name textureData frameCount givenSpeed| | | |]; cbn [perform].
  - rewrite RegistrationFacts.addAnimation_unfold. cbn zeta.
    set (entry := mkEntry _ _ _ _).
    assert (Hkeep : forall n, is_Some (animations (this w) !! n) ->
                              is_Some (<[name := entry]> (animations (this w)) !! n)).
    { intros n Hin. destruct (decide (name = n)) as [->|Hne].
      - rewrite lookup_insert_eq. eauto.
      - by rewrite lookup_insert_ne. }
    destruct (falsy (currentAnimation (this w))).
    + match goal with |- context [changeAnimation ?n ?d ?w2] =>
        destruct (changeAnimation_never n d w2) as (Hs & Ha & Hv & Hp) end.
      rewrite Hs, Ha, Hv. cbn [this with_visible with_animations speed animations visible].
      split; [done|]. split; [exact Hkeep|]. split; [done|]. intros Hpaused _.
      by apply Hp.
    + cbn. split; [done|]. split; [exact Hkeep|]. split; done.
  - destruct (changeAnimation_never animationName direction w) as (Hs & Ha & Hv & Hp).
    rewrite Hs, Ha, Hv. split; [done|]. split; [done|]. split; [done|]. by intros ? _; auto.
  - unfold changeDirection, mbind, M_bind, get_this.
    destruct (currentAnimation (this w)) as [n|]; [|by repeat split].
    destruct (falsy (Some n)); [by repeat split|].
    destruct (changeAnimation_never n direction w) as (Hs & Ha & Hv & Hp).
    rewrite Hs, Ha, Hv. split; [done|]. split; [done|]. split; [done|]. by intros ? _; auto.
  - cbn. by repeat split.
  - cbn. split; [done|]. split; [done|]. split; [done|]. by intros _ ?.
Qed.

End NeverFacts.

(** X17.  No sequence of calls changes the locomotion speed, removes a
    registered name, or hides a visible sprite; and a paused sprite is
    never set playing again by anything but [play()]: registrations and
    transitions, also those that throw, leave it paused. *)
Theorem calls_never (calls : list Call) (w : World) :
  let w' := perform_all calls w in
  speed (this w') = speed (this w) /\
  (forall name, is_Some (animations (this w) !! name) ->
                is_Some (animations (this w') !! name)) /\
  (visible (this w) = true -> visible (this w') = true) /\
  (playing (this w) = false -> call_play ∉ calls -> playing (this w') = false).
Proof.
  revert w. induction calls as [|call calls IH]; intros w; cbn [perform_all].
  - by repeat split.
  - destruct (NeverFacts.perform_never call w) as (Hs & Ha & Hv & Hp).
    destruct (IH (perform call w).2) as (Hs' & Ha' & Hv' & Hp').
    split; [congruence|]. split; [by auto|]. split; [by auto|].
    intros Hpaused Hnoplay. apply not_elem_of_cons in Hnoplay as [Hne Hnoplay].
    apply Hp'; [|done]. apply Hp; [done | congruence].
Qed.

(** X18.  A switch of animation that names no direction keeps the facing
    whenever the target animation has sequences for it: the call returns
    with the target current and the current direction as it was. *)
Theorem changeAnimation_keeps_facing animationName w anim :
  animations (this w) !! animationName = Some anim ->
  is_Some (Obj.get (anim_textures anim) (to_key (currentDirection (this w)))) ->
  exists w',
    changeAnimation animationName None w = (Normal tt, w') /\
    currentAnimation (this w') = Some animationName /\
    currentDirection (this w') = currentDirection (this w) /\
    (currentAnimation (this w) <> Some animationName ->
     textures (this w')
     = Obj.get (anim_textures anim) (to_key (currentDirection (this w)))).
Proof.
  intros H [frames Hframes].
  assert (Hres : resolve_direction (this w) anim None = currentDirection (this w)).
  { unfold resolve_direction. by rewrite Hframes. }
  destruct (decide (currentAnimation (this w) = Some animationName)) as [Hn|Hn].
  - exists w. split; [by apply (ControllerFacts.changeAnimation_same _ _ _ anim)|].
    split; [done|]. split; done.
  - eexists. split.
    + apply (ControllerFacts.changeAnimation_swap animationName None w anim frames H);
        rewrite Hres; [by left | done].
    + cbn. rewrite Hres, Hframes. split; [done|]. split; done.
Qed.

Lemma changeAnimation_keeps_facing_witness :
  let anim := sliced_entry (sheet 6 4) four_ways (QArith_base.Qmake 1 10) in
  animations (this running) !! "walk" = Some anim /\
  is_Some (Obj.get (anim_textures anim) (to_key (currentDirection (this running)))) /\
  currentAnimation (this running) <> Some "walk" /\
  exists w',
    changeAnimation "walk" None running = (Normal tt, w') /\
    currentAnimation (this w') = Some "walk" /\
    currentDirection (this w') = currentDirection (this running) /\
    (currentAnimation (this running) <> Some "walk" ->
     textures (this w')
     = Obj.get (anim_textures anim) (to_key (currentDirection (this running)))).
Proof.
  intros anim.
  assert (H1 : animations (this running) !! "walk" = Some anim)
    by (vm_compute; reflexivity).
  assert (H2 : is_Some (Obj.get (anim_textures anim)
                          (to_key (currentDirection (this running)))))
    by (vm_compute; eexists; reflexivity).
  split; [exact H1|]. split; [exact H2|]. split; [vm_compute; discriminate|].
  exact (changeAnimation_keeps_facing "walk" running anim H1 H2).
Defined.

(** ** The fallback direction *)

(** X19.  For a registered name whose entry has a first direction key
    and whose requested direction (the argument, or the current direction
    for [null]) is not a key of the entry's mapping, [changeAnimation]
    takes the first key of the mapping in insertion order: it returns
    without reporting anything, the recorded pair is the name with that
    key, and unless this was already the current pair the host shows the
    sequence stored under that key. *)
Theorem changeAnimation_fallback animationName direction w anim first :
  animations (this w) !! animationName = Some anim ->
  let requested :=
    match direction with
    | None => currentDirection (this w)
    | Some d => Some d
    end in
  Obj.get (anim_textures anim) (to_key requested) = None ->
  head (Obj.keys (anim_textures anim)) = Some first ->
  exists w',
    changeAnimation animationName direction w = (Normal tt, w') /\
    currentAnimation (this w') = Some animationName /\
    currentDirection (this w') = Some first /\
    console w' = console w /\
    (currentAnimation (this w) <> Some animationName \/
     currentDirection (this w) <> Some first ->
     is_Some (textures (this w')) /\
     textures (this w') = Obj.get (anim_textures anim) first).
Proof.
  intros H requested Hreq Hfirst.
  assert (Hres : resolve_direction (this w) anim direction = Some first).
  { unfold resolve_direction. fold requested. by rewrite Hreq. }
  destruct (ObjFacts.head_keys_get _ _ Hfirst) as [frames Hframes].
  destruct (decide (currentAnimation (this w) = Some animationName)) as [Hn|Hn];
    [destruct (decide (currentDirection (this w) = Some first)) as [Hd|Hd]|].
  - exists w. split; [eapply ControllerFacts.changeAnimation_same; eauto; congruence|].
    split; [done|]. split; [done|]. split; [done|]. intros [?|?]; done.
  - eexists. split.
    + apply (ControllerFacts.changeAnimation_swap _ _ _ anim frames H);
        rewrite Hres; [by right | done].
    + simpl. rewrite Hres, Hframes. eauto 10.
  - eexists. split.
    + apply (ControllerFacts.changeAnimation_swap _ _ _ anim frames H);
        rewrite Hres; [by left | done].
    + simpl. rewrite Hres, Hframes. eauto 10.
Qed.

Lemma changeAnimation_fallback_witness :
  let anim := sliced_entry (sheet 6 1) ["down"] (QArith_base.Qmake 15 100) in
  animations (this hurting) !! "hurt" = Some anim /\
  Obj.get (anim_textures anim) (to_key (Some "left")) = None /\
  head (Obj.keys (anim_textures anim)) = Some "down" /\
  exists w',
    changeAnimation "hurt" (Some "left") hurting = (Normal tt, w') /\
    currentAnimation (this w') = Some "hurt" /\
    currentDirection (this w') = Some "down" /\
    console w' = console hurting /\
    (currentAnimation (this hurting) <> Some "hurt" \/
     currentDirection (this hurting) <> Some "down" ->
     is_Some (textures (this w')) /\
     textures (this w') = Obj.get (anim_textures anim) "down").
Proof.
  intros anim.
  assert (H1 : animations (this hurting) !! "hurt" = Some anim) by (vm_compute; reflexivity).
  assert (H2 : Obj.get (anim_textures anim) (to_key (Some "left")) = None) by (vm_compute; reflexivity).
  assert (H3 : head (Obj.keys (anim_textures anim)) = Some "down") by (vm_compute; reflexivity).
  split; [exact H1|]. split; [exact H2|]. split; [exact H3|].
  exact (changeAnimation_fallback "hurt" (Some "left") hurting anim "down" H1 H2 H3).
Defined.

(** ** The factory: one failure does not stop the others *)

(** X20.  For positive frame sizes the factory always returns.  Every
    configured name ends in exactly one of the two lists, [total] counts
    the configured names, and a name whose image fails to load is recorded
    in the failed list with the error's message, is not among the
    successful ones and is not registered, while the loop goes on with the
    remaining entries.  For two entries [a] and [b] where [a]'s sheet
    loads and holds at least one whole frame (it is at least one frame
    wide and one frame high) and [b]'s fails, the result is
    [successful = [a]], [failed = [{b, message}]], [total = 2], and the
    character has exactly [a] registered. *)
Theorem factory_isolates_failures
    (Assets_load : string -> Error + BaseTexture) (frameW frameH : Z)
    (directions : list string) (basePath : option string)
    (console0 : list ConsoleLine) :
  0 < frameW -> 0 < frameH ->
  let path animName :=
    String.append (default "pngs/" basePath) (String.append animName ".png") in
  (forall animationConfigs,
     exists character loadResults console',
       CreateCharacterWithManyAnimations Assets_load animationConfigs frameW frameH
         directions basePath console0
       = (Normal (character, loadResults), console') /\
       total loadResults = length animationConfigs /\
       (successful loadResults ++ (failed loadResults).*1) ≡ₚ Obj.keys animationConfigs /\
       (forall animName e,
           animName ∈ Obj.keys animationConfigs -> Assets_load (path animName) = inl e ->
           (animName, message e) ∈ failed loadResults /\
           (animName ∉ successful loadResults) /\
           animations character !! animName = None)) /\
  (forall a b configA configB texture e,
     Assets_load (path a) = inr texture ->
     frameW <= width texture -> frameH <= height texture ->
     Assets_load (path b) = inl e ->
     exists character console',
       CreateCharacterWithManyAnimations Assets_load [(a, configA); (b, configB)]
         frameW frameH directions basePath console0
       = (Normal (character, mkLoadResults [a] [(b, message e)] 2), console') /\
       dom (animations character) = {[ a ]}).
Proof.
  intros Hw Hh path. split.
  - intros animationConfigs. unfold CreateCharacterWithManyAnimations.
    unfold mbind at 1 2, M_bind at 1 2, console_write at 1. cbn [this console].
    set (lr0 := mkLoadResults [] [] _). set (w0 := mkWorld _ _).
    destruct (FactoryFacts.load_all_spec Assets_load frameW frameH directions
                (default "pngs/" basePath) animationConfigs lr0 w0)
      as (lr & w & -> & Htot & Hperm & _ & Hfail & Hsucc & Hreg).
    unfold mbind, M_bind, console_write, get_this, mret, M_ret. cbn [this console].
    exists (this w), lr.
    destruct (bool_decide _); (eexists; split; [reflexivity|]);
      (split; [rewrite Htot; subst lr0; cbn; unfold Obj.keys; by rewrite length_fmap|]);
      (split; [exact Hperm|]);
      intros animName e Hin Hload;
      (split; [by eapply Hfail|]);
      (split; [intros Hs; destruct (Hsucc _ Hs) as [Hs'|[_ [t Ht]]];
               [by apply elem_of_nil in Hs' | fold (path animName) in Ht; congruence]|]);
      destruct (animations (this w) !! animName) eqn:E; [|done| |done];
      (destruct (Hreg animName) as [[x Hx]|[_ [t Ht]]];
       [by rewrite E | done | fold (path animName) in Ht; congruence]).
  - intros a b configA configB texture e Ha Hwide Htall Hb.
    unfold CreateCharacterWithManyAnimations.
    unfold mbind at 1 2, M_bind at 1 2, console_write at 1. cbn [this console load_all].
    set (lr0 := mkLoadResults [] [] _). set (w0 := mkWorld _ _).
    unfold mbind, M_bind.
    destruct (FactoryFacts.load_animation_loaded Assets_load frameW frameH directions
                (default "pngs/" basePath) lr0 a configA w0 texture Ha)
      as (lr1 & w1 & -> & Htot1 & Hreg1 & _ & Hok).
    destruct Hok as [Hs1 Hf1]; [by apply SlicerFacts.textureData_nonempty|].
    rewrite (FactoryFacts.load_animation_failure Assets_load frameW frameH directions
               (default "pngs/" basePath) lr1 b configB w1 e Hb).
    unfold console_write, get_this, mret, M_ret. cbn.
    rewrite Hs1, Hf1, Htot1. cbn.
    eexists _, _. split; [reflexivity|].
    cbn [this console]. rewrite Hreg1. subst w0. cbn [this animations new_AnimatedCharacter
      with_visible sprite_play].
    rewrite dom_insert_L, dom_empty_L. by rewrite (right_id_L ∅ (∪)).
Qed.

Lemma factory_isolates_failures_witness :
  0 < 64 /\ 0 < 64 /\
  only_a "pngs/a.png" = inr (sheet 2 4) /\
  64 <= width (sheet 2 4) /\ 64 <= height (sheet 2 4) /\
  only_a "pngs/b.png" = inl (mkError "not found") /\
  exists character console',
    CreateCharacterWithManyAnimations only_a
      [("a", mkConfig (Some (QArith_base.Qmake 15 100))); ("b", mkConfig None)]
      64 64 four_ways None []
    = (Normal (character, mkLoadResults ["a"] [("b", "not found")] 2), console') /\
    dom (animations character) = {[ "a" ]}.
Proof.
  assert (Hw : 0 < 64) by lia.
  assert (Ha : only_a "pngs/a.png" = inr (sheet 2 4)) by (vm_compute; reflexivity).
  assert (Hwide : 64 <= width (sheet 2 4)) by (vm_compute; discriminate).
  assert (Htall : 64 <= height (sheet 2 4)) by (vm_compute; discriminate).
  assert (Hb : only_a "pngs/b.png" = inl (mkError "not found")) by (vm_compute; reflexivity).
  split; [exact Hw|]. split; [exact Hw|]. split; [exact Ha|]. split; [exact Hwide|].
  split; [exact Htall|]. split; [exact Hb|].
  exact (proj2 (factory_isolates_failures only_a 64 64 four_ways None [] Hw Hw)
           "a" "b" (mkConfig (Some (QArith_base.Qmake 15 100))) (mkConfig None)
           (sheet 2 4) (mkError "not found") Ha Hwide Htall Hb).
Defined.
